(** * Eclipse ship duel: the Monte-Carlo battle simulator

    A shallow embedding of [battle_sim.py] (the plain resolver) and of
    [battle_sim_numba.py] (the pure-Python fallback resolver and the JIT core),
    followed by the properties of the duel resolver and of the Monte-Carlo
    driver.

    Python integers are unbounded and are modelled by [Z]; the integers of the
    JIT core are 64-bit, and the core is described where its sums stay within
    that range.  The process-wide random generator is
    modelled by the stream of indices it is going to produce and a cursor into
    it.  Loops that Python runs without bound take a [fuel] argument, the
    number of iterations they may perform: [None] means the fuel ran out. *)

From Stdlib Require Import ZArith List Bool Lia QArith Qpower Lqa Sorted.
Import ListNotations.
Local Open Scope Z_scope.

(** ** The state monad the simulator runs in *)

Definition State (S A : Type) : Type := S -> A * S.

Definition ret {S A : Type} (a : A) : State S A := fun s => (a, s).

Definition bind {S A B : Type} (m : State S A) (f : A -> State S B) : State S B :=
  fun s => let (a, s') := m s in f a s'.

Notation "x <- m ;; f" := (bind m (fun x => f))
  (at level 61, m at next level, right associativity).
Notation "m ;;; f" := (bind m (fun _ => f))
  (at level 61, right associativity).

(** ** Dice *)

(** [random.choice(seq)] on a six-element list and [random.randint(0, 5)] both
    draw one index below six from the generator. *)
Inductive Die : Type := D0 | D1 | D2 | D3 | D4 | D5.

Definition die_value (d : Die) : Z :=
  match d with D0 => 0 | D1 => 1 | D2 => 2 | D3 => 3 | D4 => 4 | D5 => 5 end.

Definition all_dice : list Die := [D0; D1; D2; D3; D4; D5].

(** A roll is [Union[str, int]] in the source: one of the two strings or a number. *)
Inductive Roll : Type :=
| NoDamage : Roll
| Num : Z -> Roll
| FullHit : Roll.

Definition Roll_eqb (x y : Roll) : bool :=
  match x, y with
  | NoDamage, NoDamage => true
  | FullHit, FullHit => true
  | Num v, Num w => v =? w
  | _, _ => false
  end.

(** The list handed to [random.choice] in [Ship._roll]. *)
Definition faces : list Roll := [NoDamage; Num 2; Num 3; Num 4; Num 5; FullHit].

Definition choice (seq : list Roll) (d : Die) : Roll :=
  nth (Z.to_nat (die_value d)) seq NoDamage.

(** ** The world: the random generator and the record of the shots fired *)

Inductive Side : Type := SideA | SideB.

Definition Side_eqb (x y : Side) : bool :=
  match x, y with
  | SideA, SideA | SideB, SideB => true
  | _, _ => false
  end.

(** One shot, as the resolvers fire it.  The record is ghost state: who fired,
    in which exchange (0 is the missile phase, [k] the [k]-th cannon round),
    the hull the shooter had left at that moment, whether the shot hit and the
    damage of the weapon. *)
Record Shot : Type := mkShot {
  shooter : Side;
  exchange : nat;
  shooter_hull : Z;
  landed : bool;
  weapon_damage : Z
}.

Record World : Type := mkWorld {
  tape : nat -> Die;
  cursor : nat;
  shots : list Shot
}.

(** One draw of an index below six. *)
Definition randbelow6 : State World Die :=
  fun w => (tape w (cursor w), mkWorld (tape w) (S (cursor w)) (shots w)).

Definition record_shot (e : Shot) : State World unit :=
  fun w => (tt, mkWorld (tape w) (cursor w) (shots w ++ [e])).

(** [random.seed(seed)]: the generator restarts on the stream of that seed. *)
Definition reseed (stream : nat -> Die) : State World unit :=
  fun w => (tt, mkWorld stream 0 (shots w)).

(** ** What a call of the driver yields *)

(** The dictionary a caller passes as [spec_a] or [spec_b]. *)
Record Spec : Type := mkSpec {
  sp_initiative : Z;
  sp_hull : Z;
  sp_computer : Z;
  sp_shield : Z;
  sp_missiles : list Z;
  sp_cannons : list Z
}.

(** [Returned p]: the call returned the quotient [p] (Python returns the
    binary64 number nearest to it, a function of [p]'s numerator and
    denominator); [ZeroDivisionError]: it raised; [OutOfFuel]: a duel was
    still running when its fuel ran out. *)
Inductive Outcome : Type :=
| Returned : Q -> Outcome
| ZeroDivisionError : Outcome
| OutOfFuel : Outcome.

(** [x / y] on two Python integers. *)
Definition true_div (x y : Z) : Outcome :=
  if y =? 0 then ZeroDivisionError else Returned (inject_Z x / inject_Z y)%Q.

(** ** battle_sim.py *)

Module BattleSim.

Record Ship : Type := mkShip {
  initiative : Z;
  hull : Z;
  computer : Z;
  shield : Z;
  missiles : list Z;
  cannons : list Z
}.

(** The two [Ship] objects of a trial are distinct objects; [first] and
    [second] are references to them. *)
Record Mem : Type := mkMem {
  rng : World;
  obj_a : Ship;
  obj_b : Ship
}.

Definition deref (r : Side) : State Mem Ship :=
  fun m => (match r with SideA => obj_a m | SideB => obj_b m end, m).

Definition assign (r : Side) (s : Ship) : State Mem unit :=
  fun m => (tt, match r with
                | SideA => mkMem (rng m) s (obj_b m)
                | SideB => mkMem (rng m) (obj_a m) s
                end).

Definition lift {A : Type} (c : State World A) : State Mem A :=
  fun m => let (a, w) := c (rng m) in (a, mkMem w (obj_a m) (obj_b m)).

Definition _destroyed (self : Ship) : bool := hull self <=? 0.

Definition _take (self : Ship) (dmg : Z) : Ship :=
  mkShip (initiative self) (hull self - dmg) (computer self) (shield self)
         (missiles self) (cannons self).

Definition _roll : State Mem Roll :=
  d <- lift randbelow6 ;; ret (choice faces d).

Definition _hit (self : Ship) (roll : Roll) (target_shield : Z) : bool :=
  match roll with
  | NoDamage => false
  | FullHit => true
  | Num v => v + computer self - target_shield >=? 6
  end.

(** [xch] is ghost: the exchange the volley belongs to. *)
Fixpoint _fire (xch : nat) (self target : Side) (weapon : list Z) : State Mem unit :=
  match weapon with
  | [] => ret tt
  | dmg :: rest =>
      roll <- _roll ;;
      me <- deref self ;;
      tg <- deref target ;;
      let h := _hit me roll (shield tg) in
      lift (record_shot (mkShot self xch (hull me) h dmg)) ;;;
      if h then
        assign target (_take tg dmg) ;;;
        tg' <- deref target ;;
        if _destroyed tg' then ret tt else _fire xch self target rest
      else _fire xch self target rest
  end.

(** A Python list is true when it is not empty. *)
Definition truthy (l : list Z) : bool :=
  match l with [] => false | _ :: _ => true end.

(** The [while] loop of the cannon phase; [Some tt] when the loop was left. *)
Fixpoint cannon_phase (fuel : nat) (xch : nat) (first second : Side)
  : State Mem (option unit) :=
  a <- deref SideA ;;
  b <- deref SideB ;;
  if negb (_destroyed a) && negb (_destroyed b) then
    match fuel with
    | O => ret None
    | S fuel' =>
        f <- deref first ;;
        _fire xch first second (cannons f) ;;;
        s <- deref second ;;
        if _destroyed s then ret (Some tt)
        else
          _fire xch second first (cannons s) ;;;
          cannon_phase fuel' (S xch) first second
    end
  else ret (Some tt).

Definition _simulate_once (fuel : nat) : State Mem (option Z) :=
  a <- deref SideA ;;
  b <- deref SideB ;;
  let (first, second) :=
    if initiative a >? initiative b then (SideA, SideB) else (SideB, SideA) in
  f <- deref first ;;
  first_kills <-
    (if truthy (missiles f)
     then _fire 0 first second (missiles f) ;;;
          s <- deref second ;; ret (_destroyed s)
     else ret false) ;;
  if first_kills then ret (Some (if Side_eqb first SideA then 1 else -1))
  else
    s <- deref second ;;
    second_kills <-
      (if truthy (missiles s)
       then _fire 0 second first (missiles s) ;;;
            f' <- deref first ;; ret (_destroyed f')
       else ret false) ;;
    if second_kills then ret (Some (if Side_eqb second SideA then 1 else -1))
    else
      left <- cannon_phase fuel 1 first second ;;
      match left with
      | None => ret None
      | Some _ =>
          a' <- deref SideA ;;
          b' <- deref SideB ;;
          if _destroyed a' && _destroyed b' then ret (Some 0)
          else ret (Some (if negb (_destroyed a') then 1 else -1))
      end.

(** A [Ship] built from the entries of the dictionary [spec]. *)
Definition Ship_init (spec : Spec) : Ship :=
  mkShip (sp_initiative spec) (sp_hull spec) (sp_computer spec) (sp_shield spec)
         (sp_missiles spec) (sp_cannons spec).

(** A call [_simulate_once(a, b)] on two objects of its own. *)
Definition call_simulate_once (fuel : nat) (a b : Ship) : State World (option Z) :=
  fun w => let (r, m) := _simulate_once fuel (mkMem w a b) in (r, rng m).

(** The [for] loop of [win_probability], [n] trials to go. *)
Fixpoint trials (fuel : nat) (n : nat) (spec_a spec_b : Spec) (wins : Z)
  : State World (option Z) :=
  match n with
  | O => ret (Some wins)
  | S n' =>
      let ship_a := Ship_init spec_a in
      let ship_b := Ship_init spec_b in
      outcome <- call_simulate_once fuel ship_a ship_b ;;
      match outcome with
      | None => ret None
      | Some o => trials fuel n' spec_a spec_b (wins + (if o =? 1 then 1 else 0))
      end
  end.

Section Driver.

(** The stream of indices the generator produces once seeded with [seed]. *)
Variable seeded : Z -> nat -> Die.

Definition win_probability (spec_a spec_b : Spec) (simulations : Z)
           (seed : option Z) (fuel : nat) : State World Outcome :=
  match seed with Some s => reseed (seeded s) | None => ret tt end ;;;
  wins <- trials fuel (Z.to_nat simulations) spec_a spec_b 0 ;;
  match wins with
  | None => ret OutOfFuel
  | Some wins => ret (true_div wins simulations)
  end.

End Driver.

End BattleSim.

(** ** battle_sim_numba.py *)

(** The JIT core is modelled up to [_battle_once]; the parallel loop
    [_batch_simulate] and the path of [win_probability] that calls it are
    not. *)

Module BattleSimNumba.

(** *** The JIT core: 64-bit integers *)

(** The compiled core computes on signed 64-bit integers and reads the damage
    values from arrays of 32-bit integers.  numba compiles a signed sum
    without a check, and the source does not determine what the compiled
    code does once a sum leaves the 64-bit range, nor is there a call on an
    argument that does not fit its type.  The definitions below give the
    core on arguments that fit, as long as no sum leaves the range; [wrap64]
    only makes them total, and what they yield beyond that range says
    nothing about the code.  Every property of the core further down is
    stated for specs in that range ([int64_safe], [jit_spec]). *)

Definition wrap64 (z : Z) : Z := (z + 2 ^ 63) mod 2 ^ 64 - 2 ^ 63.

(** The constant dice mapping: -1 is "No damage", -2 is "Full hit". *)
Definition _VALUES : list Z := [-1; 2; 3; 4; 5; -2].

Definition _roll_hit (comp shield : Z) : State World bool :=
  d <- randbelow6 ;;
  let r := die_value d in
  let val := nth (Z.to_nat r) _VALUES 0 in
  if val =? -1 then ret false
  else if val =? -2 then ret true
  else ret (wrap64 (wrap64 (val + comp) - shield) >=? 6).

(** [who], [xch] and [own_hp] are ghost: the shooter, the exchange and the
    hull the shooter has left. *)
Fixpoint _fire_sequence (who : Side) (xch : nat) (own_hp : Z)
         (dmg_arr : list Z) (comp enemy_shield enemy_hp : Z) : State World Z :=
  match dmg_arr with
  | [] => ret enemy_hp
  | dmg :: rest =>
      h <- _roll_hit comp enemy_shield ;;
      record_shot (mkShot who xch own_hp h dmg) ;;;
      if h then
        let enemy_hp := wrap64 (enemy_hp - dmg) in
        if enemy_hp <=? 0 then ret enemy_hp
        else _fire_sequence who xch own_hp rest comp enemy_shield enemy_hp
      else _fire_sequence who xch own_hp rest comp enemy_shield enemy_hp
  end.

(** The [while True] loop of [_battle_once]. *)
Fixpoint cannon_loop (fuel : nat) (xch : nat) (a_first : bool)
         (a_comp a_shield : Z) (a_can : list Z)
         (b_comp b_shield : Z) (b_can : list Z)
         (a_hp b_hp : Z) : State World (option Z) :=
  match fuel with
  | O => ret None
  | S fuel' =>
      if a_first then
        b_hp <- _fire_sequence SideA xch a_hp a_can a_comp b_shield b_hp ;;
        if b_hp <=? 0 then ret (Some 1)
        else
          a_hp <- _fire_sequence SideB xch b_hp b_can b_comp a_shield a_hp ;;
          if a_hp <=? 0 then ret (Some 0)
          else cannon_loop fuel' (S xch) a_first a_comp a_shield a_can
                           b_comp b_shield b_can a_hp b_hp
      else
        a_hp <- _fire_sequence SideB xch b_hp b_can b_comp a_shield a_hp ;;
        if a_hp <=? 0 then ret (Some 0)
        else
          b_hp <- _fire_sequence SideA xch a_hp a_can a_comp b_shield b_hp ;;
          if b_hp <=? 0 then ret (Some 1)
          else cannon_loop fuel' (S xch) a_first a_comp a_shield a_can
                           b_comp b_shield b_can a_hp b_hp
  end.

Definition _battle_once (fuel : nat)
           (a_init a_hp0 a_comp a_shield : Z) (a_miss a_can : list Z)
           (b_init b_hp0 b_comp b_shield : Z) (b_miss b_can : list Z)
  : State World (option Z) :=
  let a_hp := a_hp0 in
  let b_hp := b_hp0 in
  let a_first := a_init >? b_init in
  if a_first then
    b_hp <- _fire_sequence SideA 0 a_hp a_miss a_comp b_shield b_hp ;;
    if b_hp <=? 0 then ret (Some 1)
    else
      a_hp <- _fire_sequence SideB 0 b_hp b_miss b_comp a_shield a_hp ;;
      if a_hp <=? 0 then ret (Some 0)
      else cannon_loop fuel 1 a_first a_comp a_shield a_can
                       b_comp b_shield b_can a_hp b_hp
  else
    a_hp <- _fire_sequence SideB 0 b_hp b_miss b_comp a_shield a_hp ;;
    if a_hp <=? 0 then ret (Some 0)
    else
      b_hp <- _fire_sequence SideA 0 a_hp a_miss a_comp b_shield b_hp ;;
      if b_hp <=? 0 then ret (Some 1)
      else cannon_loop fuel 1 a_first a_comp a_shield a_can
                       b_comp b_shield b_can a_hp b_hp.

(** *** The pure-Python fallback *)

Definition _roll_hit_py (comp shield : Z) : State World bool :=
  d <- randbelow6 ;;
  let r := die_value d in
  if r =? 0 then ret false
  else if r =? 5 then ret true
  else
    let val := r + 1 in
    ret (val + comp - shield >=? 6).

Fixpoint _fire_sequence_py (who : Side) (xch : nat) (own_hp : Z)
         (damage_seq : list Z) (comp enemy_shield enemy_hp : Z) : State World Z :=
  match damage_seq with
  | [] => ret enemy_hp
  | dmg :: rest =>
      h <- _roll_hit_py comp enemy_shield ;;
      record_shot (mkShot who xch own_hp h dmg) ;;;
      if h then
        let enemy_hp := enemy_hp - dmg in
        if enemy_hp <=? 0 then ret enemy_hp
        else _fire_sequence_py who xch own_hp rest comp enemy_shield enemy_hp
      else _fire_sequence_py who xch own_hp rest comp enemy_shield enemy_hp
  end.

(** The [while True] loop of [_battle_once_py]. *)
Fixpoint cannon_loop_py (fuel : nat) (xch : nat) (spec_a spec_b : Spec)
         (a_first : bool) (a_hp b_hp : Z) : State World (option bool) :=
  match fuel with
  | O => ret None
  | S fuel' =>
      if a_first then
        b_hp <- _fire_sequence_py SideA xch a_hp (sp_cannons spec_a)
                  (sp_computer spec_a) (sp_shield spec_b) b_hp ;;
        if b_hp <=? 0 then ret (Some true)
        else
          a_hp <- _fire_sequence_py SideB xch b_hp (sp_cannons spec_b)
                    (sp_computer spec_b) (sp_shield spec_a) a_hp ;;
          if a_hp <=? 0 then ret (Some false)
          else cannon_loop_py fuel' (S xch) spec_a spec_b a_first a_hp b_hp
      else
        a_hp <- _fire_sequence_py SideB xch b_hp (sp_cannons spec_b)
                  (sp_computer spec_b) (sp_shield spec_a) a_hp ;;
        if a_hp <=? 0 then ret (Some false)
        else
          b_hp <- _fire_sequence_py SideA xch a_hp (sp_cannons spec_a)
                    (sp_computer spec_a) (sp_shield spec_b) b_hp ;;
          if b_hp <=? 0 then ret (Some true)
          else cannon_loop_py fuel' (S xch) spec_a spec_b a_first a_hp b_hp
  end.

Definition _battle_once_py (fuel : nat) (spec_a spec_b : Spec)
  : State World (option bool) :=
  let a_hp := sp_hull spec_a in
  let b_hp := sp_hull spec_b in
  let a_first := sp_initiative spec_a >? sp_initiative spec_b in
  if a_first then
    b_hp <- _fire_sequence_py SideA 0 a_hp (sp_missiles spec_a)
              (sp_computer spec_a) (sp_shield spec_b) b_hp ;;
    if b_hp <=? 0 then ret (Some true)
    else
      a_hp <- _fire_sequence_py SideB 0 b_hp (sp_missiles spec_b)
                (sp_computer spec_b) (sp_shield spec_a) a_hp ;;
      if a_hp <=? 0 then ret (Some false)
      else cannon_loop_py fuel 1 spec_a spec_b a_first a_hp b_hp
  else
    a_hp <- _fire_sequence_py SideB 0 b_hp (sp_missiles spec_b)
              (sp_computer spec_b) (sp_shield spec_a) a_hp ;;
    if a_hp <=? 0 then ret (Some false)
    else
      b_hp <- _fire_sequence_py SideA 0 a_hp (sp_missiles spec_a)
                (sp_computer spec_a) (sp_shield spec_b) b_hp ;;
      if b_hp <=? 0 then ret (Some true)
      else cannon_loop_py fuel 1 spec_a spec_b a_first a_hp b_hp.

(** The [for] loop of the fallback path of [win_probability]. *)
Fixpoint trials_py (fuel : nat) (n : nat) (spec_a spec_b : Spec) (wins : Z)
  : State World (option Z) :=
  match n with
  | O => ret (Some wins)
  | S n' =>
      won <- _battle_once_py fuel spec_a spec_b ;;
      match won with
      | None => ret None
      | Some won =>
          trials_py fuel n' spec_a spec_b (if won then wins + 1 else wins)
      end
  end.

Section Driver.

Variable seeded : Z -> nat -> Die.

(** [win_probability] where numba is not installed ([NUMBA_AVAILABLE] is
    false): the seed goes to [random] alone and the fallback loop runs. *)
Definition win_probability (spec_a spec_b : Spec) (simulations : Z)
           (seed : option Z) (fuel : nat) : State World Outcome :=
  match seed with Some s => reseed (seeded s) | None => ret tt end ;;;
  wins <- trials_py fuel (Z.to_nat simulations) spec_a spec_b 0 ;;
  match wins with
  | None => ret OutOfFuel
  | Some wins => ret (true_div wins simulations)
  end.

End Driver.

End BattleSimNumba.

(** * Properties *)

Import BattleSim.

(** ** Single-shot resolution *)

(** The world after one draw. *)
Definition advance (w : World) : World :=
  mkWorld (tape w) (S (cursor w)) (shots w).

(** The hit rule on the face the index [d] selects, for an attacker with
    computer [comp] against a shield [sh]. *)
Definition hits (comp sh : Z) (d : Die) : bool :=
  match choice faces d with
  | NoDamage => false
  | FullHit => true
  | Num v => v + comp - sh >=? 6
  end.

Lemma hit_is_hits (self : Ship) (sh : Z) (d : Die) :
  _hit self (choice faces d) sh = hits (computer self) sh d.
Proof. reflexivity. Qed.

Lemma roll_step (m : Mem) :
  _roll m = (choice faces (tape (rng m) (cursor (rng m))),
             mkMem (advance (rng m)) (obj_a m) (obj_b m)).
Proof. reflexivity. Qed.

Lemma roll_hit_py_step (comp sh : Z) (w : World) :
  BattleSimNumba._roll_hit_py comp sh w = (hits comp sh (tape w (cursor w)), advance w).
Proof.
  unfold BattleSimNumba._roll_hit_py, randbelow6, bind, hits, advance.
  destruct (tape w (cursor w)); reflexivity.
Qed.

Lemma wrap64_small (z : Z) : - 2 ^ 63 <= z < 2 ^ 63 -> BattleSimNumba.wrap64 z = z.
Proof.
  intros H. unfold BattleSimNumba.wrap64.
  rewrite Z.mod_small; lia.
Qed.

(** The JIT core decides by the same rule as long as its 64-bit sums do not
    wrap around. *)
Lemma roll_hit_step (comp sh : Z) (w : World) :
  - 2 ^ 61 <= comp < 2 ^ 61 -> - 2 ^ 61 <= sh < 2 ^ 61 ->
  BattleSimNumba._roll_hit comp sh w = (hits comp sh (tape w (cursor w)), advance w).
Proof.
  intros Hc Hs.
  assert (P1 : 2 ^ 63 = 4 * 2 ^ 61) by reflexivity.
  assert (P2 : 8 < 2 ^ 61) by reflexivity.
  assert (Hw : forall v, 2 <= v <= 5 ->
                 BattleSimNumba.wrap64 (BattleSimNumba.wrap64 (v + comp) - sh)
                 = v + comp - sh).
  { intros v Hv. rewrite (wrap64_small (v + comp)) by lia. apply wrap64_small. lia. }
  assert (Hv : forall d, nth (Z.to_nat (die_value d)) BattleSimNumba._VALUES 0
                         = match d with
                           | D0 => -1 | D1 => 2 | D2 => 3 | D3 => 4 | D4 => 5 | D5 => -2
                           end) by (intros []; reflexivity).
  assert (Hf : forall d, choice faces d
                         = match d with
                           | D0 => NoDamage | D1 => Num 2 | D2 => Num 3
                           | D3 => Num 4 | D4 => Num 5 | D5 => FullHit
                           end) by (intros []; reflexivity).
  unfold BattleSimNumba._roll_hit, randbelow6, bind, hits, advance.
  rewrite Hv, Hf.
  destruct (tape w (cursor w)); cbn [Z.eqb Pos.eqb]; unfold ret;
    rewrite ?Hw by lia; reflexivity.
Qed.

(** The threshold is inclusive: a 5 with computer 2 against shield 1 makes
    exactly 6 and hits, a 4 makes 5 and misses. *)
Example threshold_is_inclusive :
  hits 2 1 D4 = true /\ hits 2 1 D3 = false.
Proof. split; reflexivity. Qed.

(** C1. A shot's roll is one of six outcomes, No damage, 2, 3, 4, 5 and Full
    hit, each selected by exactly one of the six indices the generator draws
    (so a uniform index gives each outcome one chance in six); No damage never
    hits, Full hit always hits, and a number [v] hits exactly when
    [v + C - S >= 6]; the plain resolver's [_roll] and [_hit] and the
    fallback's [_roll_hit_py] both consume one draw and decide by this rule. *)
Theorem single_shot_hit_resolution :
  forall (self : Ship) (S : Z) (m : Mem) (w : World),
    (map (choice faces) all_dice = [NoDamage; Num 2; Num 3; Num 4; Num 5; FullHit]
     /\ (forall d : Die, In d all_dice) /\ length all_dice = 6%nat
     /\ NoDup (map die_value all_dice)
     /\ (forall o : Roll, In o faces ->
           length (filter (fun d => Roll_eqb (choice faces d) o) all_dice) = 1%nat))
    /\ _roll m = (choice faces (tape (rng m) (cursor (rng m))),
                  mkMem (advance (rng m)) (obj_a m) (obj_b m))
    /\ _hit self NoDamage S = false
    /\ _hit self FullHit S = true
    /\ (forall v : Z, _hit self (Num v) S = true <-> v + computer self - S >= 6)
    /\ BattleSimNumba._roll_hit_py (computer self) S w
       = (_hit self (choice faces (tape w (cursor w))) S, advance w).
Proof.
  intros self S m w. repeat split.
  - intros []; simpl; tauto.
  - repeat constructor; simpl; intuition discriminate.
  - intros o Ho. simpl in Ho.
    repeat (destruct Ho as [<- | Ho]; [reflexivity | ]). contradiction.
  - simpl. intros H. apply Z.geb_le in H. lia.
  - simpl. intros H. apply Z.geb_le. lia.
  - rewrite roll_hit_py_step. reflexivity.
Qed.

(** ** Volleys *)

(** What a volley does, apart from the world: the hull the target has left and,
    for each shot fired, whether it hit and the damage of its weapon.  The
    shots read the stream [tp] from position [c] on. *)
Fixpoint volley (tp : nat -> Die) (c : nat) (comp sh : Z) (dmgs : list Z) (hp : Z)
  : Z * list (bool * Z) :=
  match dmgs with
  | [] => (hp, [])
  | dmg :: rest =>
      if hits comp sh (tp c) then
        if hp - dmg <=? 0 then (hp - dmg, [(true, dmg)])
        else
          let (hp', l) := volley tp (S c) comp sh rest (hp - dmg) in
          (hp', (true, dmg) :: l)
      else
        let (hp', l) := volley tp (S c) comp sh rest hp in
        (hp', (false, dmg) :: l)
  end.

(** The world after the shots [l] of one volley. *)
Definition after_volley (who : Side) (xch : nat) (own : Z) (w : World)
           (l : list (bool * Z)) : World :=
  mkWorld (tape w) (length l + cursor w)
          (shots w ++ map (fun p => mkShot who xch own (fst p) (snd p)) l).

Lemma after_volley_nil who xch own w : after_volley who xch own w [] = w.
Proof. destruct w. unfold after_volley. simpl. now rewrite app_nil_r. Qed.

Lemma after_volley_cons who xch own w h d l :
  after_volley who xch own
    (mkWorld (tape w) (S (cursor w)) (shots w ++ [mkShot who xch own h d])) l
  = after_volley who xch own w ((h, d) :: l).
Proof.
  unfold after_volley. simpl. f_equal.
  - lia.
  - now rewrite <- app_assoc.
Qed.

Lemma fire_sequence_py_volley (dmgs : list Z) :
  forall who xch own comp sh hp w,
    BattleSimNumba._fire_sequence_py who xch own dmgs comp sh hp w
    = (fst (volley (tape w) (cursor w) comp sh dmgs hp),
       after_volley who xch own w (snd (volley (tape w) (cursor w) comp sh dmgs hp))).
Proof.
  induction dmgs as [| dmg rest IH]; intros who xch own comp sh hp w.
  - simpl. now rewrite after_volley_nil.
  - simpl. unfold bind at 1. rewrite roll_hit_py_step.
    unfold bind at 1. unfold record_shot at 1. simpl.
    destruct (hits comp sh (tape w (cursor w))) eqn:Hh.
    + destruct (hp - dmg <=? 0) eqn:Hd.
      * unfold ret. simpl. now rewrite <- after_volley_cons, after_volley_nil.
      * rewrite IH. simpl.
        destruct (volley (tape w) (S (cursor w)) comp sh rest (hp - dmg)) as [hp' l].
        simpl. now rewrite after_volley_cons.
    + rewrite IH. simpl.
      destruct (volley (tape w) (S (cursor w)) comp sh rest hp) as [hp' l].
      simpl. now rewrite after_volley_cons.
Qed.

(** The plain resolver's ships. *)
Definition other (s : Side) : Side :=
  match s with SideA => SideB | SideB => SideA end.

Definition get (r : Side) (m : Mem) : Ship :=
  match r with SideA => obj_a m | SideB => obj_b m end.

Definition set_hull (s : Ship) (hp : Z) : Ship :=
  mkShip (initiative s) hp (computer s) (shield s) (missiles s) (cannons s).

Definition put (r : Side) (s : Ship) (m : Mem) : Mem :=
  match r with
  | SideA => mkMem (rng m) s (obj_b m)
  | SideB => mkMem (rng m) (obj_a m) s
  end.

Definition with_rng (m : Mem) (w : World) : Mem := mkMem w (obj_a m) (obj_b m).

Lemma set_hull_same s : set_hull s (hull s) = s.
Proof. now destruct s. Qed.

(** A volley of the plain resolver: the target's hull and the world change,
    as [volley] says, and nothing else does. *)
Lemma fire_volley (weapon : list Z) :
  forall xch self m,
    _fire xch self (other self) weapon m
    = let me := get self m in
      let tg := get (other self) m in
      let v := volley (tape (rng m)) (cursor (rng m)) (computer me) (shield tg)
                      weapon (hull tg) in
      (tt, put (other self) (set_hull tg (fst v))
               (with_rng m (after_volley self xch (hull me) (rng m) (snd v)))).
Proof.
  induction weapon as [| dmg rest IH]; intros xch self m.
  - simpl. unfold ret. rewrite after_volley_nil, set_hull_same.
    f_equal. destruct self, m; reflexivity.
  - cbn [_fire]. unfold bind at 1. rewrite roll_step.
    unfold bind at 1, deref at 1. unfold bind at 1, deref at 1.
    unfold bind at 1, lift at 1, record_shot at 1.
    cbn zeta. rewrite hit_is_hits. cbn [volley].
    destruct self; cbn [other get rng obj_a obj_b advance tape cursor shots];
      (destruct (hits (computer _) (shield _) (tape (rng m) (cursor (rng m)))) eqn:Hh;
       [ unfold bind at 1, assign at 1; unfold bind at 1, deref at 1;
         cbn [rng obj_a obj_b]; unfold _destroyed, _take at 1; cbn [hull];
         destruct (hull _ - dmg <=? 0) eqn:Hk;
         [ unfold ret; cbn [fst snd]; rewrite <- after_volley_cons, after_volley_nil;
           reflexivity
         | ]
       | ]).
    all: first [rewrite (IH xch SideA) | rewrite (IH xch SideB)];
      cbn [get other rng obj_a obj_b _take hull shield computer with_rng put
           tape cursor shots];
      match goal with |- context [volley ?t ?c ?k ?s ?l ?h] =>
        destruct (volley t c k s l h) as [hp' l']
      end;
      cbn [fst snd]; rewrite after_volley_cons; reflexivity.
Qed.

(** ** The resolvers, one step at a time *)

(** The memory after a volley of the plain resolver. *)
Definition fire_mem (xch : nat) (self : Side) (weapon : list Z) (m : Mem) : Mem :=
  let me := get self m in
  let tg := get (other self) m in
  let v := volley (tape (rng m)) (cursor (rng m)) (computer me) (shield tg)
                  weapon (hull tg) in
  put (other self) (set_hull tg (fst v))
      (with_rng m (after_volley self xch (hull me) (rng m) (snd v))).

Lemma fire_A xch weapon m :
  _fire xch SideA SideB weapon m = (tt, fire_mem xch SideA weapon m).
Proof. exact (fire_volley weapon xch SideA m). Qed.

Lemma fire_B xch weapon m :
  _fire xch SideB SideA weapon m = (tt, fire_mem xch SideB weapon m).
Proof. exact (fire_volley weapon xch SideB m). Qed.

Lemma cannon_phase_step fuel xch first m :
  cannon_phase fuel xch first (other first) m
  = if negb (_destroyed (obj_a m)) && negb (_destroyed (obj_b m)) then
      match fuel with
      | O => (None, m)
      | S fuel' =>
          let m1 := fire_mem xch first (cannons (get first m)) m in
          if _destroyed (get (other first) m1) then (Some tt, m1)
          else
            let m2 := fire_mem xch (other first) (cannons (get (other first) m1)) m1 in
            cannon_phase fuel' (S xch) first (other first) m2
      end
    else (Some tt, m).
Proof.
  destruct fuel as [| fuel']; cbn [cannon_phase];
    unfold bind at 1, deref at 1; unfold bind at 1, deref at 1;
    destruct (negb (_destroyed (obj_a m)) && negb (_destroyed (obj_b m)));
    try reflexivity.
  destruct first; cbn [other get];
    unfold bind at 1, deref at 1; unfold bind at 1;
    rewrite ?fire_A, ?fire_B; unfold bind at 1, deref at 1;
    match goal with |- context [_destroyed ?s] => destruct (_destroyed s) end;
    try reflexivity;
    unfold bind at 1; rewrite ?fire_A, ?fire_B; reflexivity.
Qed.

(** The steps of [_simulate_once]: a missile volley and the check after it,
    and what follows the cannon phase. *)
Ltac missile_volley :=
  unfold bind at 1; rewrite ?fire_A, ?fire_B;
  unfold bind at 1, deref at 1; unfold ret at 1;
  match goal with |- context [_destroyed ?s] => destruct (_destroyed s) end;
  [reflexivity |].

Ltac missile_phase_step :=
  unfold bind at 1, deref at 1; unfold bind at 1;
  match goal with |- context [truthy ?l] => destruct (truthy l) end; cbn [andb];
  [missile_volley | unfold ret at 1].

Ltac tail_of_duel :=
  unfold bind at 1;
  match goal with
  | |- context [cannon_phase ?f ?x ?a ?b ?mm] =>
      destruct (cannon_phase f x a b mm) as [[[] |] ?]
  end;
  unfold bind, deref, ret;
  repeat match goal with |- context [if ?c then _ else _] => destruct c end;
  reflexivity.

Lemma simulate_once_step fuel m :
  _simulate_once fuel m
  = let first := if initiative (obj_a m) >? initiative (obj_b m) then SideA else SideB in
    let m1 := if truthy (missiles (get first m))
              then fire_mem 0 first (missiles (get first m)) m else m in
    if truthy (missiles (get first m)) && _destroyed (get (other first) m1)
    then (Some (if Side_eqb first SideA then 1 else -1), m1)
    else
      let m2 := if truthy (missiles (get (other first) m1))
                then fire_mem 0 (other first) (missiles (get (other first) m1)) m1
                else m1 in
      if truthy (missiles (get (other first) m1)) && _destroyed (get first m2)
      then (Some (if Side_eqb (other first) SideA then 1 else -1), m2)
      else
        let (left, m3) := cannon_phase fuel 1 first (other first) m2 in
        match left with
        | None => (None, m3)
        | Some _ =>
            if _destroyed (obj_a m3) && _destroyed (obj_b m3) then (Some 0, m3)
            else (Some (if negb (_destroyed (obj_a m3)) then 1 else -1), m3)
        end.
Proof.
  unfold _simulate_once.
  unfold bind at 1, deref at 1. unfold bind at 1, deref at 1.
  destruct (initiative (obj_a m) >? initiative (obj_b m)); cbn zeta; cbn [other get];
    missile_phase_step; missile_phase_step; tail_of_duel.
Qed.

(** ** The plain resolver and the fallback resolver *)

(** The ship a spec stands for, with [hp] hull left. *)
Definition ship_at (spec : Spec) (hp : Z) : Ship := set_hull (Ship_init spec) hp.

Definition side_of (a_first : bool) : Side := if a_first then SideA else SideB.

Lemma leb_pos_false (z : Z) : 0 < z -> (z <=? 0) = false.
Proof. intros H. apply Z.leb_gt. exact H. Qed.

Lemma destroyed_set_hull (s : Ship) (hp : Z) :
  _destroyed (set_hull s hp) = (hp <=? 0).
Proof. reflexivity. Qed.

(** What it means for the cannon phase of the two resolvers to agree: the
    same world is left, and when the fallback names a winner the plain loop
    was left with just the loser destroyed. *)
Definition cannon_agree (pm : option unit * Mem) (pp : option bool * World) : Prop :=
  rng (snd pm) = snd pp
  /\ match fst pp with
     | None => fst pm = None
     | Some won =>
         fst pm = Some tt
         /\ _destroyed (obj_a (snd pm)) = negb won
         /\ _destroyed (obj_b (snd pm)) = won
     end.

Ltac agree_done :=
  repeat split; try reflexivity; unfold _destroyed; cbn [ship_at set_hull hull];
  first [ assumption | now apply leb_pos_false ].

Lemma cannon_phase_refines (spec_a spec_b : Spec) (a_first : bool) (fuel : nat) :
  forall xch ha hb w,
    0 < ha -> 0 < hb ->
    cannon_agree
      (cannon_phase fuel xch (side_of a_first) (other (side_of a_first))
                    (mkMem w (ship_at spec_a ha) (ship_at spec_b hb)))
      (BattleSimNumba.cannon_loop_py fuel xch spec_a spec_b a_first ha hb w).
Proof.
  induction fuel as [| fuel IH]; intros xch ha hb w Ha Hb;
    rewrite cannon_phase_step; unfold _destroyed at 1 2;
    cbn [obj_a obj_b ship_at set_hull hull];
    rewrite (leb_pos_false ha Ha), (leb_pos_false hb Hb); cbn [negb andb].
  - split; reflexivity.
  - cbn [BattleSimNumba.cannon_loop_py].
    destruct a_first; cbn [side_of other]; unfold bind at 1;
      rewrite fire_sequence_py_volley; unfold fire_mem;
      cbn [get other put with_rng rng obj_a obj_b ship_at set_hull Ship_init hull
           computer shield cannons fst snd _destroyed tape cursor];
      match goal with |- context [volley ?t ?c ?k ?s ?l ?h] =>
        destruct (volley t c k s l h) as [hp1 l1] end;
      cbn [fst snd]; rewrite ?destroyed_set_hull;
      (destruct (hp1 <=? 0) eqn:E1;
       [ unfold cannon_agree, ret; cbn;
         solve [agree_done]
       | ]);
      unfold bind at 1; rewrite fire_sequence_py_volley;
      cbn [tape cursor after_volley];
      match goal with |- context [volley ?t ?c ?k ?s ?l ?h] =>
        destruct (volley t c k s l h) as [hp2 l2] end;
      cbn [fst snd]; rewrite ?destroyed_set_hull;
      (destruct (hp2 <=? 0) eqn:E2;
       [ match goal with |- context [cannon_phase fuel (S xch) ?f ?s ?mm] =>
           change (cannon_phase fuel (S xch) f s mm)
             with (cannon_phase fuel (S xch) f (other f) mm) end;
         rewrite cannon_phase_step; unfold cannon_agree, ret; cbn;
         rewrite ?destroyed_set_hull, ?E1, ?E2; cbn; solve [agree_done]
       | ]).
    + apply (IH (S xch) hp2 hp1); now apply Z.leb_gt.
    + apply (IH (S xch) hp1 hp2); now apply Z.leb_gt.
Qed.

Lemma fire_mem_nil xch self m : fire_mem xch self [] m = m.
Proof.
  unfold fire_mem. cbn [volley fst snd].
  rewrite after_volley_nil, set_hull_same. destruct self, m; reflexivity.
Qed.

Lemma fire_mem_if xch self l m :
  (if truthy l then fire_mem xch self l m else m) = fire_mem xch self l m.
Proof. destruct l; [now rewrite fire_mem_nil | reflexivity]. Qed.

(** The plain resolver's verdict for the fallback's. *)
Definition verdict (won : bool) : Z := if won then 1 else -1.

Definition plain_view (p : option bool * World) : option Z * World :=
  (option_map verdict (fst p), snd p).

Lemma truthy_volley tp c comp sh l hp :
  0 < hp ->
  truthy l && (fst (volley tp c comp sh l hp) <=? 0)
  = (fst (volley tp c comp sh l hp) <=? 0).
Proof.
  intros H. destruct l; [| reflexivity].
  cbn. symmetry. now apply leb_pos_false.
Qed.

Lemma verdict_after_cannon (pm : option unit * Mem) (pp : option bool * World) :
  cannon_agree pm pp ->
  (let (r, m) :=
     let (left, m3) := pm in
     match left with
     | Some _ =>
         if _destroyed (obj_a m3) && _destroyed (obj_b m3) then (Some 0, m3)
         else (Some (if negb (_destroyed (obj_a m3)) then 1 else -1), m3)
     | None => (None, m3)
     end in
   (r, rng m)) = plain_view pp.
Proof.
  destruct pm as [left m3], pp as [won w']. unfold cannon_agree, plain_view.
  cbn [fst snd]. intros [<- Hr].
  destruct won as [[|]|].
  - destruct Hr as (-> & -> & ->). reflexivity.
  - destruct Hr as (-> & -> & ->). reflexivity.
  - rewrite Hr. reflexivity.
Qed.

Lemma simulate_once_refines (spec_a spec_b : Spec) (fuel : nat) (w : World) :
  0 < sp_hull spec_a -> 0 < sp_hull spec_b ->
  call_simulate_once fuel (Ship_init spec_a) (Ship_init spec_b) w
  = plain_view (BattleSimNumba._battle_once_py fuel spec_a spec_b w).
Proof.
  intros Ha Hb. unfold call_simulate_once. rewrite simulate_once_step.
  unfold BattleSimNumba._battle_once_py.
  cbn [obj_a obj_b Ship_init initiative].
  destruct (sp_initiative spec_a >? sp_initiative spec_b) eqn:Hi; cbn zeta;
    rewrite !fire_mem_if; unfold bind at 1; rewrite fire_sequence_py_volley;
    unfold fire_mem;
    cbn [get other put with_rng rng obj_a obj_b Ship_init hull set_hull
         computer shield missiles fst snd tape cursor];
    rewrite !destroyed_set_hull, truthy_volley by assumption;
    match goal with |- context [volley ?t ?c ?k ?s ?l ?h] =>
      destruct (volley t c k s l h) as [hp1 l1] end;
    cbn [fst snd];
    (destruct (hp1 <=? 0) eqn:E1; [ reflexivity | ]);
    apply Z.leb_gt in E1;
    unfold bind at 1; rewrite fire_sequence_py_volley;
    cbn [tape cursor after_volley];
    rewrite truthy_volley by assumption;
    match goal with |- context [volley ?t ?c ?k ?s ?l ?h] =>
      destruct (volley t c k s l h) as [hp2 l2] end;
    cbn [fst snd];
    (destruct (hp2 <=? 0) eqn:E2; [ reflexivity | ]);
    apply Z.leb_gt in E2.
  - apply verdict_after_cannon.
    apply (cannon_phase_refines spec_a spec_b true fuel 1 hp2 hp1); assumption.
  - apply verdict_after_cannon.
    apply (cannon_phase_refines spec_a spec_b false fuel 1 hp1 hp2); assumption.
Qed.

(** ** Streams and ships for the examples *)

(** The stream that starts with the indices of [l] and yields [D0] ever
    after, and the world in which nothing of it is drawn and no shot fired. *)
Definition tape_of (l : list Die) : nat -> Die := fun i => nth i l D0.

Definition fresh (l : list Die) : World := mkWorld (tape_of l) 0 [].

(** A generator: a fixed stream of indices for each seed. *)
Definition toy_generator (s : Z) (i : nat) : Die :=
  nth ((Z.to_nat s + 5 * i + i / 7) mod 6) all_dice D0.

(** The first scenario of the test suite. *)
Definition sudden_death_a : Spec := mkSpec 5 1 2 1 [] [1].
Definition sudden_death_b : Spec := mkSpec 4 1 1 1 [] [1].

(** C3, as amended. For every pair of specs whose starting hulls are positive,
    every stream of rolls and every fuel, [_simulate_once] and
    [_battle_once_py] declare the same winner, 1 for [True] and -1 for
    [False], or both are still running when the fuel is spent; they draw the
    same rolls and fire the same shots. *)
Theorem plain_agrees_with_fallback_on_positive_hulls :
  forall (spec_a spec_b : Spec) (fuel : nat) (w : World),
    0 < sp_hull spec_a -> 0 < sp_hull spec_b ->
    fst (call_simulate_once fuel (Ship_init spec_a) (Ship_init spec_b) w)
    = match fst (BattleSimNumba._battle_once_py fuel spec_a spec_b w) with
      | Some true => Some 1
      | Some false => Some (-1)
      | None => None
      end
    /\ snd (call_simulate_once fuel (Ship_init spec_a) (Ship_init spec_b) w)
       = snd (BattleSimNumba._battle_once_py fuel spec_a spec_b w).
Proof.
  intros spec_a spec_b fuel w Ha Hb.
  rewrite (simulate_once_refines spec_a spec_b fuel w Ha Hb).
  unfold plain_view. cbn [fst snd]. split; [| reflexivity].
  destruct (fst (BattleSimNumba._battle_once_py fuel spec_a spec_b w)) as [[|]|];
    reflexivity.
Qed.

Lemma plain_agrees_with_fallback_witness :
  fst (call_simulate_once 4 (Ship_init sudden_death_a) (Ship_init sudden_death_b)
                          (fresh [D1; D5]))
  = match fst (BattleSimNumba._battle_once_py 4 sudden_death_a sudden_death_b
                 (fresh [D1; D5])) with
    | Some true => Some 1
    | Some false => Some (-1)
    | None => None
    end
  /\ snd (call_simulate_once 4 (Ship_init sudden_death_a) (Ship_init sudden_death_b)
                             (fresh [D1; D5]))
     = snd (BattleSimNumba._battle_once_py 4 sudden_death_a sudden_death_b
              (fresh [D1; D5])).
Proof.
  apply (plain_agrees_with_fallback_on_positive_hulls
           sudden_death_a sudden_death_b 4 (fresh [D1; D5]));
    reflexivity.
Defined.

(** In that run A misses, B hits, and both resolvers name B. *)
Example plain_and_fallback_name_b :
  fst (call_simulate_once 4 (Ship_init sudden_death_a) (Ship_init sudden_death_b)
                          (fresh [D1; D5])) = Some (-1)
  /\ fst (BattleSimNumba._battle_once_py 4 sudden_death_a sudden_death_b
            (fresh [D1; D5])) = Some false.
Proof. split; reflexivity. Qed.

(** C3 as stated fails where a starting hull is 0.  A has no missiles and more
    initiative, B starts with hull 0 and one missile, every roll is a Full
    hit: the plain resolver skips the check after A's empty missile volley, B
    fires and wins (-1); the fallback checks B's hull first and A wins. *)
Lemma plain_and_fallback_disagree_at_hull_zero :
  fst (call_simulate_once 1 (Ship_init (mkSpec 5 1 0 0 [] [1]))
                          (Ship_init (mkSpec 4 0 0 0 [1] [])) (fresh [D5]))
  = Some (-1)
  /\ fst (BattleSimNumba._battle_once_py 1 (mkSpec 5 1 0 0 [] [1])
            (mkSpec 4 0 0 0 [1] []) (fresh [D5]))
     = Some true.
Proof. split; reflexivity. Qed.

(** ** What a volley leaves unchanged *)

Lemma fire_mem_self xch self l m :
  get self (fire_mem xch self l m) = get self m.
Proof. destruct self; reflexivity. Qed.

Lemma fire_mem_rng xch self l m :
  rng (fire_mem xch self l m)
  = after_volley self xch (hull (get self m)) (rng m)
      (snd (volley (tape (rng m)) (cursor (rng m)) (computer (get self m))
                   (shield (get (other self) m)) l (hull (get (other self) m)))).
Proof. destruct self; reflexivity. Qed.

(** Both ships destroyed. *)
Definition both_destroyed (m : Mem) : bool :=
  _destroyed (obj_a m) && _destroyed (obj_b m).

Lemma both_destroyed_get s m :
  both_destroyed m = _destroyed (get s m) && _destroyed (get (other s) m).
Proof.
  destruct s; unfold both_destroyed; cbn [get other];
    [reflexivity | apply andb_comm].
Qed.

(** The cannon phase never ends with both ships destroyed, unless both were on
    entry, and then it does nothing. *)
Lemma cannon_phase_no_draw fuel :
  forall xch first m,
    both_destroyed (snd (cannon_phase fuel xch first (other first) m)) = true ->
    snd (cannon_phase fuel xch first (other first) m) = m /\ both_destroyed m = true.
Proof.
  induction fuel as [| fuel IH]; intros xch first m; rewrite cannon_phase_step;
    destruct (negb (_destroyed (obj_a m)) && negb (_destroyed (obj_b m))) eqn:Hc;
    cbn [snd]; try (intros H; split; [reflexivity | exact H]).
  assert (Hf : _destroyed (get first m) = false).
  { destruct first; cbn [get];
      destruct (_destroyed (obj_a m)), (_destroyed (obj_b m)); simpl in *;
      congruence. }
  cbn zeta.
  destruct (_destroyed (get (other first)
              (fire_mem xch first (cannons (get first m)) m))) eqn:Hs; cbn [snd].
  - intros H. rewrite (both_destroyed_get first) in H.
    rewrite fire_mem_self, Hf in H. discriminate.
  - intros H. apply IH in H. destruct H as [_ H].
    rewrite (both_destroyed_get (other first)) in H.
    rewrite fire_mem_self, Hs in H. discriminate.
Qed.

Lemma truthy_false l : truthy l = false -> l = [].
Proof. destruct l; [reflexivity | discriminate]. Qed.

Lemma verdict_not_draw (c : bool) : Some (if c then 1 else -1) <> Some 0.
Proof. destruct c; discriminate. Qed.

(** A duel of the plain resolver that ends in a draw has done nothing. *)
Lemma simulate_once_draw fuel m :
  fst (_simulate_once fuel m) = Some 0 ->
  snd (_simulate_once fuel m) = m
  /\ both_destroyed m = true
  /\ missiles (obj_a m) = [] /\ missiles (obj_b m) = [].
Proof.
  rewrite simulate_once_step. cbn zeta.
  set (first := if initiative (obj_a m) >? initiative (obj_b m) then SideA else SideB).
  destruct (truthy (missiles (get first m)) &&
            _destroyed (get (other first)
              (if truthy (missiles (get first m))
               then fire_mem 0 first (missiles (get first m)) m else m))) eqn:K1.
  { cbn [fst]. intros H. now apply verdict_not_draw in H. }
  set (m1 := if truthy (missiles (get first m))
             then fire_mem 0 first (missiles (get first m)) m else m) in *.
  destruct (truthy (missiles (get (other first) m1)) &&
            _destroyed (get first
              (if truthy (missiles (get (other first) m1))
               then fire_mem 0 (other first) (missiles (get (other first) m1)) m1
               else m1))) eqn:K2.
  { cbn [fst]. intros H. now apply verdict_not_draw in H. }
  set (m2 := if truthy (missiles (get (other first) m1))
             then fire_mem 0 (other first) (missiles (get (other first) m1)) m1
             else m1) in *.
  pose proof (cannon_phase_no_draw fuel 1 first m2) as Hno.
  destruct (cannon_phase fuel 1 first (other first) m2) as [[[]|] m3]; cbn [fst snd] in *;
    [| discriminate].
  fold (both_destroyed m3).
  destruct (both_destroyed m3) eqn:Hb; cbn [fst snd].
  2:{ intros H. now apply verdict_not_draw in H. }
  intros _. destruct (Hno eq_refl) as [-> Hb2]. clear Hno Hb.
  (* the second volley *)
  assert (T2 : truthy (missiles (get (other first) m1)) = false).
  { destruct (truthy (missiles (get (other first) m1))) eqn:T; [| reflexivity].
    cbn [andb] in K2. rewrite (both_destroyed_get first) in Hb2. fold m2 in K2.
    rewrite K2 in Hb2. discriminate. }
  assert (E2 : m2 = m1) by (unfold m2; now rewrite T2).
  rewrite E2 in *.
  assert (T1 : truthy (missiles (get first m)) = false).
  { destruct (truthy (missiles (get first m))) eqn:T; [| reflexivity].
    cbn [andb] in K1. rewrite (both_destroyed_get first), andb_comm in Hb2.
    rewrite K1 in Hb2. discriminate. }
  assert (E1 : m1 = m) by (unfold m1; now rewrite T1).
  rewrite E1 in *.
  repeat split; try assumption.
  - destruct first; cbn [get other] in *; now apply truthy_false.
  - destruct first; cbn [get other] in *; now apply truthy_false.
Qed.

Lemma simulate_once_draws fuel m :
  both_destroyed m = true ->
  missiles (obj_a m) = [] -> missiles (obj_b m) = [] ->
  _simulate_once fuel m = (Some 0, m).
Proof.
  intros Hb Ha Hm. rewrite simulate_once_step. cbn zeta.
  assert (T : forall r, truthy (missiles (get r m)) = false).
  { intros []; cbn [get]; [rewrite Ha | rewrite Hm]; reflexivity. }
  rewrite !T. cbn [andb]. rewrite ?T. cbn [andb].
  rewrite cannon_phase_step. unfold both_destroyed in Hb.
  apply andb_prop in Hb. destruct Hb as [Hda Hdb].
  rewrite Hda, Hdb. cbn [negb andb]. cbv beta iota. now rewrite Hda, Hdb.
Qed.

(** ** Draws of the plain resolver *)

(** C4 as it is stated: some duel of the plain resolver returns 0 with both
    hulls at or below 0, and in it a combatant fired a shot when its own hull
    was already at or below 0. *)
Definition draw_by_late_volley : Prop :=
  exists (fuel : nat) (a b : Ship) (tp : nat -> Die),
    fst (_simulate_once fuel (mkMem (mkWorld tp 0 []) a b)) = Some 0
    /\ hull (obj_a (snd (_simulate_once fuel (mkMem (mkWorld tp 0 []) a b)))) <= 0
    /\ hull (obj_b (snd (_simulate_once fuel (mkMem (mkWorld tp 0 []) a b)))) <= 0
    /\ exists e : Shot,
         In e (shots (rng (snd (_simulate_once fuel (mkMem (mkWorld tp 0 []) a b)))))
         /\ shooter_hull e <= 0.

(** C4 as stated is false: no duel of the plain resolver that returns 0 has
    fired a shot at all. *)
Lemma no_draw_by_late_volley : draw_by_late_volley <-> False.
Proof.
  split; [| contradiction].
  intros (fuel & a & b & tp & H0 & _ & _ & e & Hin & _).
  apply simulate_once_draw in H0. destruct H0 as [Hm _].
  rewrite Hm in Hin. exact Hin.
Qed.

(** C4, as amended. [_simulate_once] returns 0 exactly when both starting
    hulls are at or below 0 and both missile lists are empty, and in that case
    it fires no shot and draws no roll: the second combatant never fires after
    the first one's volley destroyed it, and a duel between ships with
    positive starting hulls never ends in a draw. *)
Theorem draw_only_between_destroyed_ships :
  forall (fuel : nat) (a b : Ship) (w : World),
    (fst (call_simulate_once fuel a b w) = Some 0
     <-> hull a <= 0 /\ hull b <= 0 /\ missiles a = [] /\ missiles b = [])
    /\ (fst (call_simulate_once fuel a b w) = Some 0 ->
        snd (call_simulate_once fuel a b w) = w).
Proof.
  intros fuel a b w. unfold call_simulate_once.
  destruct (_simulate_once fuel (mkMem w a b)) as [r m'] eqn:E. cbn [fst snd].
  split; [split |].
  - intros ->.
    destruct (simulate_once_draw fuel (mkMem w a b)) as (_ & Hb & Ha & Hm);
      [now rewrite E |].
    unfold both_destroyed, _destroyed in Hb. cbn [obj_a obj_b] in *.
    apply andb_prop in Hb. destruct Hb as [H1 H2].
    apply Z.leb_le in H1, H2. auto.
  - intros (H1 & H2 & Ha & Hm).
    rewrite simulate_once_draws in E.
    + now inversion E.
    + unfold both_destroyed, _destroyed. cbn [obj_a obj_b].
      apply Z.leb_le in H1, H2. now rewrite H1, H2.
    + exact Ha.
    + exact Hm.
  - intros ->.
    destruct (simulate_once_draw fuel (mkMem w a b)) as (Hs & _);
      [now rewrite E |].
    rewrite E in Hs. cbn [snd] in Hs. now rewrite Hs.
Qed.

Lemma draw_only_between_destroyed_ships_witness :
  fst (call_simulate_once 0 (mkShip 3 0 1 1 [] [1]) (mkShip 3 0 1 1 [] [1]) (fresh []))
  = Some 0
  /\ snd (call_simulate_once 0 (mkShip 3 0 1 1 [] [1]) (mkShip 3 0 1 1 [] [1]) (fresh []))
     = fresh [].
Proof.
  destruct (draw_only_between_destroyed_ships 0 (mkShip 3 0 1 1 [] [1])
              (mkShip 3 0 1 1 [] [1]) (fresh [])) as [[_ Hdraw] Hquiet].
  assert (H : fst (call_simulate_once 0 (mkShip 3 0 1 1 [] [1])
                     (mkShip 3 0 1 1 [] [1]) (fresh [])) = Some 0).
  { apply Hdraw. cbn. repeat split; lia. }
  split; [exact H | exact (Hquiet H)].
Defined.

(** ** Destroyed combatants stay silent *)

(** Every shot on record was fired by a combatant with hull left, and every
    roll drawn since the cursor stood at [c0] belongs to a shot on record. *)
Definition sound_log (c0 : nat) (w : World) : Prop :=
  Forall (fun e => 0 < shooter_hull e) (shots w)
  /\ cursor w = (c0 + length (shots w))%nat.

Lemma after_volley_sound c0 who xch own w l :
  sound_log c0 w -> 0 < own -> sound_log c0 (after_volley who xch own w l).
Proof.
  intros [Hs Hc] Hown. unfold sound_log, after_volley. cbn [shots cursor]. split.
  - apply Forall_app. split; [exact Hs |].
    apply Forall_forall. intros e He. apply in_map_iff in He.
    destruct He as (p & <- & _). exact Hown.
  - rewrite length_app, length_map, Hc. lia.
Qed.

Lemma fire_mem_sound c0 xch self l m :
  sound_log c0 (rng m) -> 0 < hull (get self m) ->
  sound_log c0 (rng (fire_mem xch self l m)).
Proof. intros Hs Hh. rewrite fire_mem_rng. now apply after_volley_sound. Qed.

Lemma alive_hull (s : Ship) : _destroyed s = false -> 0 < hull s.
Proof. unfold _destroyed. intros H. now apply Z.leb_gt. Qed.

Lemma cannon_phase_sound c0 fuel :
  forall xch first m,
    sound_log c0 (rng m) ->
    sound_log c0 (rng (snd (cannon_phase fuel xch first (other first) m))).
Proof.
  induction fuel as [| fuel IH]; intros xch first m Hs; rewrite cannon_phase_step;
    destruct (negb (_destroyed (obj_a m)) && negb (_destroyed (obj_b m))) eqn:Hc;
    cbn [snd]; try exact Hs.
  assert (Hf : _destroyed (get first m) = false).
  { destruct first; cbn [get];
      destruct (_destroyed (obj_a m)), (_destroyed (obj_b m)); simpl in *; congruence. }
  cbn zeta.
  assert (H1 : sound_log c0 (rng (fire_mem xch first (cannons (get first m)) m))).
  { apply fire_mem_sound; [exact Hs | now apply alive_hull]. }
  destruct (_destroyed (get (other first)
              (fire_mem xch first (cannons (get first m)) m))) eqn:Hk; cbn [snd].
  - exact H1.
  - apply IH. apply fire_mem_sound; [exact H1 | now apply alive_hull].
Qed.

Lemma simulate_once_sound c0 fuel m :
  0 < hull (obj_a m) -> 0 < hull (obj_b m) ->
  sound_log c0 (rng m) ->
  sound_log c0 (rng (snd (_simulate_once fuel m))).
Proof.
  intros Ha Hb Hs. rewrite simulate_once_step. cbn zeta.
  set (first := if initiative (obj_a m) >? initiative (obj_b m) then SideA else SideB).
  assert (Hall : forall r, 0 < hull (get r m)) by (intros []; assumption).
  set (m1 := if truthy (missiles (get first m))
             then fire_mem 0 first (missiles (get first m)) m else m).
  assert (H1 : sound_log c0 (rng m1)).
  { unfold m1. destruct (truthy (missiles (get first m))); [| exact Hs].
    apply fire_mem_sound; [exact Hs | apply Hall]. }
  assert (A1 : truthy (missiles (get first m)) && _destroyed (get (other first) m1) = false ->
               0 < hull (get (other first) m1)).
  { unfold m1. destruct (truthy (missiles (get first m))); cbn [andb].
    - apply alive_hull.
    - intros _. apply Hall. }
  destruct (truthy (missiles (get first m)) && _destroyed (get (other first) m1)) eqn:K1;
    cbn [snd]; [exact H1 |].
  specialize (A1 eq_refl).
  set (m2 := if truthy (missiles (get (other first) m1))
             then fire_mem 0 (other first) (missiles (get (other first) m1)) m1
             else m1).
  assert (H2 : sound_log c0 (rng m2)).
  { unfold m2. destruct (truthy (missiles (get (other first) m1))); [| exact H1].
    apply fire_mem_sound; [exact H1 | exact A1]. }
  destruct (truthy (missiles (get (other first) m1)) && _destroyed (get first m2));
    cbn [snd]; [exact H2 |].
  pose proof (cannon_phase_sound c0 fuel 1 first m2 H2) as H3.
  destruct (cannon_phase fuel 1 first (other first) m2) as [[[]|] m3]; cbn [snd] in *.
  - destruct (_destroyed (obj_a m3) && _destroyed (obj_b m3)); exact H3.
  - exact H3.
Qed.

(** C9, as amended. In every trial of the plain resolver between two ships
    whose starting hulls are positive, on every stream of rolls and for every
    fuel, each shot is fired by a combatant whose remaining hull is positive
    at that moment, and each roll drawn belongs to one such shot: once a
    combatant's hull is at or below 0 it fires no further shot. *)
Theorem destroyed_combatants_stay_silent :
  forall (fuel : nat) (a b : Ship) (tp : nat -> Die) (c0 : nat),
    0 < hull a -> 0 < hull b ->
    Forall (fun e => 0 < shooter_hull e)
           (shots (snd (call_simulate_once fuel a b (mkWorld tp c0 []))))
    /\ cursor (snd (call_simulate_once fuel a b (mkWorld tp c0 [])))
       = (c0 + length (shots (snd (call_simulate_once fuel a b (mkWorld tp c0 [])))))%nat.
Proof.
  intros fuel a b tp c0 Ha Hb. unfold call_simulate_once.
  pose proof (simulate_once_sound c0 fuel (mkMem (mkWorld tp c0 []) a b) Ha Hb) as H.
  destruct (_simulate_once fuel (mkMem (mkWorld tp c0 []) a b)) as [r m'].
  cbn [snd] in *. apply H. split; [constructor | cbn; lia].
Qed.

Lemma destroyed_combatants_stay_silent_witness :
  Forall (fun e => 0 < shooter_hull e)
         (shots (snd (call_simulate_once 5 (Ship_init sudden_death_a)
                        (Ship_init sudden_death_b)
                        (mkWorld (tape_of [D1; D2; D4]) 0 []))))
  /\ cursor (snd (call_simulate_once 5 (Ship_init sudden_death_a)
                    (Ship_init sudden_death_b)
                    (mkWorld (tape_of [D1; D2; D4]) 0 [])))
     = Nat.add 0 (length (shots (snd (call_simulate_once 5 (Ship_init sudden_death_a)
                                       (Ship_init sudden_death_b)
                                       (mkWorld (tape_of [D1; D2; D4]) 0 []))))).
Proof.
  apply (destroyed_combatants_stay_silent 5 (Ship_init sudden_death_a)
           (Ship_init sudden_death_b) (tape_of [D1; D2; D4]) 0); reflexivity.
Defined.

(** In that run three shots are fired, each by a ship with hull 1. *)
Example sudden_death_shots :
  shots (snd (call_simulate_once 5 (Ship_init sudden_death_a) (Ship_init sudden_death_b)
                (mkWorld (tape_of [D1; D2; D4]) 0 [])))
  = [mkShot SideA 1 1 false 1; mkShot SideB 1 1 false 1; mkShot SideA 2 1 true 1].
Proof. reflexivity. Qed.

(** C9 as stated fails where a starting hull is 0.  A starts with hull 0, more
    initiative and one missile: its hull is at or below 0 from the start of
    the trial, and it draws a roll and fires all the same; on a Full hit it
    destroys B and wins. *)
Lemma destroyed_at_start_still_fires :
  call_simulate_once 1 (mkShip 5 0 0 0 [1] []) (mkShip 4 1 0 0 [] [])
                     (mkWorld (tape_of [D5]) 0 [])
  = (Some 1, mkWorld (tape_of [D5]) 1 [mkShot SideA 0 0 true 1]).
Proof. reflexivity. Qed.

(** ** Who fires first *)

(** In a duel that [first] opens, the shot [e1] may come before the shot [e2]
    when it belongs to an earlier exchange, or to the same exchange unless
    [e1] is the other side's and [e2] is [first]'s. *)
Definition may_precede (first : Side) (e1 e2 : Shot) : Prop :=
  (exchange e1 < exchange e2)%nat
  \/ (exchange e1 = exchange e2
      /\ (shooter e1 = first \/ shooter e2 = other first)).

(** [first] fires first for the whole duel: any two shots on record are in
    that order. *)
Definition fires_first (first : Side) (l : list Shot) : Prop :=
  StronglySorted (may_precede first) l.

(** The place of a shot in a duel that [first] opens. *)
Definition slot (first : Side) (who : Side) (xch : nat) : nat :=
  (2 * xch + (if Side_eqb who first then 0 else 1))%nat.

Definition shot_slot (first : Side) (e : Shot) : nat :=
  slot first (shooter e) (exchange e).






(** One exchange: [first] fires, then the other side, each from a world that
    is in order. *)
Lemma slot_first first xch : slot first first xch = (2 * xch)%nat.
Proof. unfold slot. destruct first; cbn [Side_eqb]; lia. Qed.

Lemma slot_second first xch : slot first (other first) xch = (2 * xch + 1)%nat.
Proof. unfold slot. destruct first; cbn [Side_eqb other]; lia. Qed.










(** Two ships of equal initiative, each with a missile and a cannon. *)
Definition tied_a : Spec := mkSpec 3 2 2 1 [1] [1].
Definition tied_b : Spec := mkSpec 3 2 1 1 [1] [1].

(** A duel between them: B's missile, A's missile, B's cannon, A's cannon. *)
Example tied_duel_shots :
  map (fun e => (shooter e, exchange e))
      (shots (snd (call_simulate_once 1 (Ship_init tied_a) (Ship_init tied_b)
                     (mkWorld (tape_of [D5; D0; D1; D5]) 0 []))))
  = [(SideB, 0%nat); (SideA, 0%nat); (SideB, 1%nat); (SideA, 1%nat)].
Proof. reflexivity. Qed.

(** ** Two runs on the same rolls *)

(** Two worlds whose generators are in the same state; the records of shots
    may differ. *)
Definition same_rng (w1 w2 : World) : Prop :=
  tape w1 = tape w2 /\ cursor w1 = cursor w2.

(** The side a ship stands on in the second run: the same, or the other one
    when the roles are swapped. *)
Definition sw (flip : bool) (s : Side) : Side := if flip then other s else s.

(** Two memories that hold the same two ships, with roles swapped when [flip],
    and generators in the same state. *)
Definition related (flip : bool) (m1 m2 : Mem) : Prop :=
  same_rng (rng m1) (rng m2) /\ forall r, get r m1 = get (sw flip r) m2.

Lemma sw_other flip s : sw flip (other s) = other (sw flip s).
Proof. destruct flip, s; reflexivity. Qed.

Lemma after_volley_same_rng who1 xch1 own1 who2 xch2 own2 w1 w2 l :
  same_rng w1 w2 ->
  same_rng (after_volley who1 xch1 own1 w1 l) (after_volley who2 xch2 own2 w2 l).
Proof.
  intros [Ht Hc]. unfold same_rng, after_volley. cbn [tape cursor].
  split; [exact Ht | now rewrite Hc].
Qed.

Lemma fire_mem_related flip x1 x2 self l m1 m2 :
  related flip m1 m2 ->
  related flip (fire_mem x1 self l m1) (fire_mem x2 (sw flip self) l m2).
Proof.
  intros [Hr Hg].
  pose proof (Hg self) as Hme. pose proof (Hg (other self)) as Htg.
  rewrite sw_other in Htg. destruct Hr as [Ht Hc].
  assert (Hv : volley (tape (rng m1)) (cursor (rng m1)) (computer (get self m1))
                      (shield (get (other self) m1)) l (hull (get (other self) m1))
               = volley (tape (rng m2)) (cursor (rng m2))
                        (computer (get (sw flip self) m2))
                        (shield (get (other (sw flip self)) m2)) l
                        (hull (get (other (sw flip self)) m2))).
  { now rewrite Ht, Hc, Hme, Htg. }
  split.
  - rewrite !fire_mem_rng, Hv. apply after_volley_same_rng. now split.
  - intros r. unfold fire_mem. cbn zeta. rewrite Hv, <- Htg.
    destruct flip, self, r; cbn [sw other get put with_rng obj_a obj_b] in *;
      first [ reflexivity | assumption | now rewrite Hme | now rewrite Htg ].
Qed.

Lemma related_get flip m1 m2 r :
  related flip m1 m2 -> get r m1 = get (sw flip r) m2.
Proof. intros [_ H]. apply H. Qed.

Lemma related_get_other flip m1 m2 r :
  related flip m1 m2 -> get (other r) m1 = get (other (sw flip r)) m2.
Proof. intros H. rewrite <- sw_other. now apply related_get. Qed.

Lemma related_alive flip m1 m2 :
  related flip m1 m2 ->
  negb (_destroyed (obj_a m1)) && negb (_destroyed (obj_b m1))
  = negb (_destroyed (obj_a m2)) && negb (_destroyed (obj_b m2)).
Proof.
  intros H. pose proof (related_get flip m1 m2 SideA H) as Ha.
  pose proof (related_get flip m1 m2 SideB H) as Hb.
  destruct flip; cbn [sw other get] in Ha, Hb; rewrite Ha, Hb;
    [apply andb_comm | reflexivity].
Qed.

Lemma related_both_destroyed flip m1 m2 :
  related flip m1 m2 -> both_destroyed m1 = both_destroyed m2.
Proof.
  intros H. pose proof (related_get flip m1 m2 SideA H) as Ha.
  pose proof (related_get flip m1 m2 SideB H) as Hb.
  unfold both_destroyed.
  destruct flip; cbn [sw other get] in Ha, Hb; rewrite Ha, Hb;
    [apply andb_comm | reflexivity].
Qed.

(** Two runs that end with the same answer and related memories. *)
Definition ends_related {A : Type} (flip : bool) (p1 p2 : A * Mem) : Prop :=
  fst p1 = fst p2 /\ related flip (snd p1) (snd p2).

Lemma cannon_phase_related flip fuel :
  forall x1 x2 first m1 m2,
    related flip m1 m2 ->
    ends_related flip (cannon_phase fuel x1 first (other first) m1)
                 (cannon_phase fuel x2 (sw flip first) (other (sw flip first)) m2).
Proof.
  induction fuel as [| fuel IH]; intros x1 x2 first m1 m2 H;
    rewrite (cannon_phase_step _ x1 first m1), (cannon_phase_step _ x2 (sw flip first) m2);
    rewrite (related_alive flip m1 m2 H);
    destruct (negb (_destroyed (obj_a m2)) && negb (_destroyed (obj_b m2)));
    try (split; [reflexivity | exact H]).
  cbn zeta.
  rewrite (related_get flip m1 m2 first H).
  pose proof (fire_mem_related flip x1 x2 first (cannons (get (sw flip first) m2)) m1 m2 H)
    as H1.
  rewrite (related_get_other flip _ _ first H1).
  destruct (_destroyed (get (other (sw flip first))
              (fire_mem x2 (sw flip first) (cannons (get (sw flip first) m2)) m2))).
  - split; [reflexivity | exact H1].
  - pose proof (fire_mem_related flip x1 x2 (other first)
                  (cannons (get (other (sw flip first))
                     (fire_mem x2 (sw flip first) (cannons (get (sw flip first) m2)) m2)))
                  _ _ H1) as H2.
    rewrite sw_other in H2.
    pose proof (IH (S x1) (S x2) first _ _ H2) as H3.
    exact H3.
Qed.

(** The cannon phase is left only with a ship destroyed. *)
Lemma cannon_phase_left fuel :
  forall xch first m,
    fst (cannon_phase fuel xch first (other first) m) = Some tt ->
    _destroyed (obj_a (snd (cannon_phase fuel xch first (other first) m)))
    || _destroyed (obj_b (snd (cannon_phase fuel xch first (other first) m))) = true.
Proof.
  induction fuel as [| fuel IH]; intros xch first m; rewrite cannon_phase_step;
    destruct (negb (_destroyed (obj_a m)) && negb (_destroyed (obj_b m))) eqn:Hc;
    cbn [fst snd]; try discriminate;
    try (intros _; destruct (_destroyed (obj_a m)), (_destroyed (obj_b m));
         simpl in *; congruence).
  cbn zeta.
  destruct (_destroyed (get (other first)
              (fire_mem xch first (cannons (get first m)) m))) eqn:Hk; cbn [fst snd].
  - intros _. destruct first; cbn [other get] in *; rewrite Hk;
      [apply orb_true_r | reflexivity].
  - apply IH.
Qed.

(** The verdict of the second run, given the verdict of the first. *)
Definition mirror (flip : bool) (v : Z) : Z := if flip then - v else v.

Lemma simulate_once_related flip fuel m1 m2 :
  related flip m1 m2 ->
  (flip = true -> initiative (obj_a m1) <> initiative (obj_b m1)) ->
  fst (_simulate_once fuel m2) = option_map (mirror flip) (fst (_simulate_once fuel m1))
  /\ same_rng (rng (snd (_simulate_once fuel m1))) (rng (snd (_simulate_once fuel m2))).
Proof.
  intros H Hinit.
  rewrite (simulate_once_step fuel m1), (simulate_once_step fuel m2). cbn zeta.
  set (first := if initiative (obj_a m1) >? initiative (obj_b m1) then SideA else SideB).
  assert (Hfirst : (if initiative (obj_a m2) >? initiative (obj_b m2) then SideA else SideB)
                   = sw flip first).
  { pose proof (related_get flip m1 m2 SideA H) as Ha.
    pose proof (related_get flip m1 m2 SideB H) as Hb. unfold first.
    destruct flip; cbn [sw other get] in *.
    - rewrite <- Ha, <- Hb. specialize (Hinit eq_refl).
      destruct (initiative (obj_a m1) >? initiative (obj_b m1)) eqn:E1,
               (initiative (obj_b m1) >? initiative (obj_a m1)) eqn:E2;
        try reflexivity; rewrite Z.gtb_ltb in E1, E2;
        [ apply Z.ltb_lt in E1, E2 | apply Z.ltb_ge in E1, E2 ]; lia.
    - now rewrite <- Ha, <- Hb. }
  rewrite Hfirst. clearbody first. clear Hinit Hfirst.
  rewrite <- (related_get flip m1 m2 first H).
  set (l1 := missiles (get first m1)).
  assert (H1 : related flip (if truthy l1 then fire_mem 0 first l1 m1 else m1)
                       (if truthy l1 then fire_mem 0 (sw flip first) l1 m2 else m2)).
  { destruct (truthy l1); [now apply fire_mem_related | exact H]. }
  set (m1a := if truthy l1 then fire_mem 0 first l1 m1 else m1) in *.
  set (m2a := if truthy l1 then fire_mem 0 (sw flip first) l1 m2 else m2) in *.
  rewrite <- (related_get_other flip m1a m2a first H1).
  destruct (truthy l1 && _destroyed (get (other first) m1a)); cbn [fst snd].
  { split; [| apply H1]. cbn [option_map]. f_equal.
    destruct flip, first; reflexivity. }
  set (l2 := missiles (get (other first) m1a)).
  assert (H2 : related flip
                 (if truthy l2 then fire_mem 0 (other first) l2 m1a else m1a)
                 (if truthy l2 then fire_mem 0 (other (sw flip first)) l2 m2a else m2a)).
  { destruct (truthy l2); [| exact H1].
    rewrite <- sw_other. now apply fire_mem_related. }
  set (m1b := if truthy l2 then fire_mem 0 (other first) l2 m1a else m1a) in *.
  set (m2b := if truthy l2 then fire_mem 0 (other (sw flip first)) l2 m2a else m2a) in *.
  rewrite <- (related_get flip m1b m2b first H2).
  destruct (truthy l2 && _destroyed (get first m1b)); cbn [fst snd].
  { split; [| apply H2]. cbn [option_map]. f_equal.
    destruct flip, first; reflexivity. }
  pose proof (cannon_phase_related flip fuel 1 1 first m1b m2b H2) as [Hr H3].
  pose proof (cannon_phase_left fuel 1 first m1b) as Hleft.
  destruct (cannon_phase fuel 1 first (other first) m1b) as [left1 m1c].
  destruct (cannon_phase fuel 1 (sw flip first) (other (sw flip first)) m2b) as [left2 m2c].
  cbn [fst snd] in *. subst left2.
  destruct left1 as [[] |]; cbn [fst snd]; [| split; [reflexivity | apply H3]].
  specialize (Hleft eq_refl).
  fold (both_destroyed m1c). fold (both_destroyed m2c).
  rewrite <- (related_both_destroyed flip m1c m2c H3).
  pose proof (related_get flip m1c m2c SideA H3) as Ha.
  pose proof (related_get flip m1c m2c SideB H3) as Hb.
  unfold both_destroyed in *.
  destruct flip; cbn [sw other get] in Ha, Hb.
  - rewrite <- Hb.
    destruct (_destroyed (obj_a m1c)), (_destroyed (obj_b m1c)); cbn in *;
      try discriminate; split; first [reflexivity | apply H3].
  - rewrite <- Ha.
    destruct (_destroyed (obj_a m1c)), (_destroyed (obj_b m1c)); cbn in *;
      split; first [reflexivity | apply H3].
Qed.

Lemma call_simulate_once_eq fuel a b w :
  call_simulate_once fuel a b w
  = (fst (_simulate_once fuel (mkMem w a b)), rng (snd (_simulate_once fuel (mkMem w a b)))).
Proof.
  unfold call_simulate_once. now destruct (_simulate_once fuel (mkMem w a b)).
Qed.

Lemma call_simulate_once_same fuel a b w1 w2 :
  same_rng w1 w2 ->
  fst (call_simulate_once fuel a b w2) = fst (call_simulate_once fuel a b w1)
  /\ same_rng (snd (call_simulate_once fuel a b w1)) (snd (call_simulate_once fuel a b w2)).
Proof.
  intros Hw. rewrite !call_simulate_once_eq. cbn [fst snd].
  destruct (simulate_once_related false fuel (mkMem w1 a b) (mkMem w2 a b)) as [Hr Hs].
  - split; [exact Hw | intros []; reflexivity].
  - discriminate.
  - split; [| exact Hs]. rewrite Hr.
    now destruct (fst (_simulate_once fuel (mkMem w1 a b))).
Qed.

Lemma call_simulate_once_swapped fuel a b w1 w2 :
  same_rng w1 w2 ->
  initiative a <> initiative b ->
  fst (call_simulate_once fuel b a w2)
  = option_map Z.opp (fst (call_simulate_once fuel a b w1))
  /\ same_rng (snd (call_simulate_once fuel a b w1)) (snd (call_simulate_once fuel b a w2)).
Proof.
  intros Hw Hi. rewrite !call_simulate_once_eq. cbn [fst snd].
  destruct (simulate_once_related true fuel (mkMem w1 a b) (mkMem w2 b a)) as [Hr Hs].
  - split; [exact Hw | intros []; reflexivity].
  - intros _. exact Hi.
  - split; [exact Hr | exact Hs].
Qed.

(** The verdict of a duel is 1, -1 or 0, and never 0 between two ships with
    hull left. *)
Lemma simulate_once_verdict fuel m v :
  fst (_simulate_once fuel m) = Some v -> v = 1 \/ v = -1 \/ v = 0.
Proof.
  rewrite simulate_once_step. cbn zeta.
  repeat match goal with
         | |- context [if ?c then _ else _] => destruct c
         | |- context [let (_, _) := ?p in _] => destruct p as [[[]|] ?]
         end; cbn [fst]; intros E; inversion E; auto.
Qed.

Lemma call_simulate_once_decided fuel a b w v :
  0 < hull a -> 0 < hull b ->
  fst (call_simulate_once fuel a b w) = Some v -> v = 1 \/ v = -1.
Proof.
  intros Ha Hb. rewrite call_simulate_once_eq. cbn [fst]. intros E.
  destruct (simulate_once_verdict _ _ _ E) as [-> | [-> | ->]]; auto.
  apply simulate_once_draw in E. destruct E as (_ & Hd & _).
  unfold both_destroyed, _destroyed in Hd. cbn [obj_a obj_b] in Hd.
  rewrite (leb_pos_false _ Ha) in Hd. discriminate.
Qed.

(** ** The Monte-Carlo driver *)

Lemma trials_step fuel n spec_a spec_b wins w :
  trials fuel (S n) spec_a spec_b wins w
  = match fst (call_simulate_once fuel (Ship_init spec_a) (Ship_init spec_b) w) with
    | None => (None, snd (call_simulate_once fuel (Ship_init spec_a) (Ship_init spec_b) w))
    | Some o =>
        trials fuel n spec_a spec_b (wins + (if o =? 1 then 1 else 0))
               (snd (call_simulate_once fuel (Ship_init spec_a) (Ship_init spec_b) w))
    end.
Proof.
  cbn [trials]. unfold bind.
  destruct (call_simulate_once fuel (Ship_init spec_a) (Ship_init spec_b) w) as [[o|] w'];
    reflexivity.
Qed.

(** The world a call starts its trials in. *)
Definition seeded_world (seeded : Z -> nat -> Die) (seed : option Z) (w : World) : World :=
  match seed with
  | Some s => mkWorld (seeded s) 0 (shots w)
  | None => w
  end.

Lemma win_probability_eq seeded spec_a spec_b simulations seed fuel w :
  win_probability seeded spec_a spec_b simulations seed fuel w
  = (match fst (trials fuel (Z.to_nat simulations) spec_a spec_b 0
                       (seeded_world seeded seed w)) with
     | None => OutOfFuel
     | Some wins => true_div wins simulations
     end,
     snd (trials fuel (Z.to_nat simulations) spec_a spec_b 0 (seeded_world seeded seed w))).
Proof.
  unfold win_probability, bind, seeded_world.
  destruct seed as [s |]; unfold reseed, ret;
    match goal with |- context [trials ?f ?n ?a ?b ?k ?w0] =>
      destruct (trials f n a b k w0) as [[wins |] w'] end; reflexivity.
Qed.

Lemma trials_same fuel spec_a spec_b n :
  forall wins w1 w2,
    same_rng w1 w2 ->
    fst (trials fuel n spec_a spec_b wins w1) = fst (trials fuel n spec_a spec_b wins w2).
Proof.
  induction n as [| n IH]; intros wins w1 w2 Hw; [reflexivity |].
  rewrite !trials_step.
  destruct (call_simulate_once_same fuel (Ship_init spec_a) (Ship_init spec_b) w1 w2 Hw)
    as [Hr Hs].
  rewrite Hr.
  destruct (fst (call_simulate_once fuel (Ship_init spec_a) (Ship_init spec_b) w1));
    [now apply IH | reflexivity].
Qed.

Lemma trials_bounds fuel spec_a spec_b n :
  forall wins w v,
    fst (trials fuel n spec_a spec_b wins w) = Some v ->
    wins <= v <= wins + Z.of_nat n.
Proof.
  induction n as [| n IH]; intros wins w v.
  - cbn. intros E. inversion E. lia.
  - rewrite trials_step.
    destruct (fst (call_simulate_once fuel (Ship_init spec_a) (Ship_init spec_b) w))
      as [o |]; [| discriminate].
    intros E. apply IH in E. destruct (o =? 1); lia.
Qed.

(** The wins of two runs on the same rolls with the roles swapped add up to
    the number of trials. *)
Lemma trials_swapped fuel spec_a spec_b n :
  0 < sp_hull spec_a -> 0 < sp_hull spec_b ->
  sp_initiative spec_a <> sp_initiative spec_b ->
  forall wins1 wins2 w1 w2,
    same_rng w1 w2 ->
    match fst (trials fuel n spec_a spec_b wins1 w1),
          fst (trials fuel n spec_b spec_a wins2 w2) with
    | Some v1, Some v2 => v1 + v2 = wins1 + wins2 + Z.of_nat n
    | None, None => True
    | _, _ => False
    end.
Proof.
  intros Ha Hb Hi.
  induction n as [| n IH]; intros wins1 wins2 w1 w2 Hw.
  - cbn. lia.
  - rewrite !trials_step.
    destruct (call_simulate_once_swapped fuel (Ship_init spec_a) (Ship_init spec_b)
                w1 w2 Hw Hi) as [Hr Hs].
    rewrite Hr.
    pose proof (call_simulate_once_decided fuel (Ship_init spec_a) (Ship_init spec_b) w1)
      as Hd.
    destruct (fst (call_simulate_once fuel (Ship_init spec_a) (Ship_init spec_b) w1))
      as [o |]; cbn [option_map]; [| exact I].
    specialize (IH (wins1 + (if o =? 1 then 1 else 0))
                   (wins2 + (if - o =? 1 then 1 else 0)) _ _ Hs).
    destruct (Hd o Ha Hb eq_refl) as [-> | ->]; cbn in IH |- *;
      destruct (fst (trials fuel n spec_a spec_b _ _)),
               (fst (trials fuel n spec_b spec_a _ _)); try exact IH; lia.
Qed.


(** C5. For every pair of specs, every trial count and every integer seed, the
    result of [win_probability] does not depend on the state the generator
    was in before the call: two calls with the same arguments, one after the
    other, return the same quotient, raise the same error, or both run for
    ever. *)
Theorem seeded_runs_are_reproducible :
  forall (seeded : Z -> nat -> Die) (spec_a spec_b : Spec) (simulations s : Z)
         (fuel : nat) (w1 w2 : World),
    fst (win_probability seeded spec_a spec_b simulations (Some s) fuel w1)
    = fst (win_probability seeded spec_a spec_b simulations (Some s) fuel w2).
Proof.
  intros seeded spec_a spec_b simulations s fuel w1 w2.
  rewrite !win_probability_eq. cbn [fst].
  rewrite (trials_same fuel spec_a spec_b (Z.to_nat simulations) 0
             (seeded_world seeded (Some s) w1) (seeded_world seeded (Some s) w2));
    [reflexivity | split; reflexivity].
Qed.

(** Without a seed the result does depend on the state of the generator. *)
Example unseeded_runs_differ :
  fst (win_probability toy_generator sudden_death_a sudden_death_b 1 None 3 (fresh [D5]))
  = Returned (inject_Z 1 / inject_Z 1)
  /\ fst (win_probability toy_generator sudden_death_a sudden_death_b 1 None 3
            (fresh [D0; D5]))
     = Returned (inject_Z 0 / inject_Z 1).
Proof. split; reflexivity. Qed.

(** A valid spec, in the words of the specification: positive hull and no
    negative damage value. *)
Definition valid_spec (spec : Spec) : Prop :=
  0 < sp_hull spec
  /\ Forall (fun dmg => 0 <= dmg) (sp_missiles spec)
  /\ Forall (fun dmg => 0 <= dmg) (sp_cannons spec).

Lemma shares_add_up (v1 v2 n : Z) :
  v1 + v2 = n -> 0 < n ->
  (inject_Z v1 / inject_Z n + inject_Z v2 / inject_Z n == 1)%Q.
Proof.
  intros Hsum Hn. unfold Qdiv.
  rewrite <- Qmult_plus_distr_l, <- inject_Z_plus, Hsum.
  apply Qmult_inv_r. unfold Qeq. cbn. lia.
Qed.

(** C6, as amended. For every pair of valid specs with distinct initiative
    values and every positive trial count, two calls
    [win_probability(A, B, n, seed)] and [win_probability(B, A, n, seed)]
    that start from the same state of the generator either both return, and
    then their results add up to 1, or neither returns: trial by trial they
    consume the same rolls with the roles swapped.  An integer seed brings
    that state about; with no seed it has to hold of the generator before
    the two calls. *)
Theorem role_swap_symmetry :
  forall (seeded : Z -> nat -> Die) (spec_a spec_b : Spec) (simulations : Z)
         (seed : option Z) (fuel : nat) (w1 w2 : World),
    valid_spec spec_a -> valid_spec spec_b ->
    sp_initiative spec_a <> sp_initiative spec_b ->
    0 < simulations ->
    (seed = None -> same_rng w1 w2) ->
    match fst (win_probability seeded spec_a spec_b simulations seed fuel w1),
          fst (win_probability seeded spec_b spec_a simulations seed fuel w2) with
    | Returned p, Returned q => (p + q == 1)%Q
    | OutOfFuel, OutOfFuel => True
    | _, _ => False
    end.
Proof.
  intros seeded spec_a spec_b simulations seed fuel w1 w2 [Ha _] [Hb _] Hi Hn Hw.
  rewrite !win_probability_eq. cbn [fst].
  assert (Hs : same_rng (seeded_world seeded seed w1) (seeded_world seeded seed w2)).
  { destruct seed as [s |]; [split; reflexivity | now apply Hw]. }
  pose proof (trials_swapped fuel spec_a spec_b (Z.to_nat simulations) Ha Hb Hi 0 0
                (seeded_world seeded seed w1) (seeded_world seeded seed w2) Hs) as H.
  destruct (fst (trials fuel (Z.to_nat simulations) spec_a spec_b 0 _)) as [v1 |],
           (fst (trials fuel (Z.to_nat simulations) spec_b spec_a 0 _)) as [v2 |];
    try exact H.
  - unfold true_div. rewrite (proj2 (Z.eqb_neq simulations 0)) by lia.
    apply shares_add_up; [| exact Hn].
    rewrite H, Z2Nat.id; lia.
  - unfold true_div. now destruct (v1 =? 0), (simulations =? 0).
  - unfold true_div. now destruct (simulations =? 0).
Qed.

Lemma valid_sudden_death : valid_spec sudden_death_a /\ valid_spec sudden_death_b.
Proof. repeat split; try reflexivity; repeat constructor; discriminate. Qed.

Lemma role_swap_symmetry_witness :
  match fst (win_probability toy_generator sudden_death_a sudden_death_b 12 (Some 1) 9
               (fresh [])),
        fst (win_probability toy_generator sudden_death_b sudden_death_a 12 (Some 1) 9
               (fresh [D3])) with
  | Returned p, Returned q => (p + q == 1)%Q
  | OutOfFuel, OutOfFuel => True
  | _, _ => False
  end.
Proof.
  apply (role_swap_symmetry toy_generator sudden_death_a sudden_death_b 12 (Some 1) 9
           (fresh []) (fresh [D3])).
  - exact (proj1 valid_sudden_death).
  - exact (proj2 valid_sudden_death).
  - discriminate.
  - reflexivity.
  - discriminate.
Defined.

(** C6 as stated fails where the seed is [None]: the second call goes on in
    the stream where the first stopped.  On the stream Full hit, No damage,
    Full hit the call for A against B returns 1, A hitting first, and the
    call for B against A that follows it returns 1 as well, the ship that
    fires first missing: the two results add up to 2. *)
Lemma role_swap_fails_without_seed :
  fst (win_probability toy_generator sudden_death_a sudden_death_b 1 None 2
         (fresh [D5; D0; D5]))
  = Returned (inject_Z 1 / inject_Z 1)
  /\ fst (win_probability toy_generator sudden_death_b sudden_death_a 1 None 2
            (snd (win_probability toy_generator sudden_death_a sudden_death_b 1 None 2
                    (fresh [D5; D0; D5]))))
     = Returned (inject_Z 1 / inject_Z 1)
  /\ (inject_Z 1 / inject_Z 1 + inject_Z 1 / inject_Z 1 == 2)%Q.
Proof. repeat split; reflexivity. Qed.

(** The two calls of the witness do return: seven wins in twelve for A and
    five in twelve for B. *)
Example role_swap_returns :
  fst (win_probability toy_generator sudden_death_a sudden_death_b 12 (Some 1) 9 (fresh []))
  = Returned (inject_Z 7 / inject_Z 12)
  /\ fst (win_probability toy_generator sudden_death_b sudden_death_a 12 (Some 1) 9
            (fresh [D3]))
     = Returned (inject_Z 5 / inject_Z 12).
Proof. split; reflexivity. Qed.

(** ** What the driver does not check *)

Lemma trials_py_nil fuel spec_a spec_b wins w :
  BattleSimNumba.trials_py fuel 0 spec_a spec_b wins w = (Some wins, w).
Proof. reflexivity. Qed.

Lemma win_probability_py_eq seeded spec_a spec_b simulations seed fuel w :
  BattleSimNumba.win_probability seeded spec_a spec_b simulations seed fuel w
  = (match fst (BattleSimNumba.trials_py fuel (Z.to_nat simulations) spec_a spec_b 0
                  (seeded_world seeded seed w)) with
     | None => OutOfFuel
     | Some wins => true_div wins simulations
     end,
     snd (BattleSimNumba.trials_py fuel (Z.to_nat simulations) spec_a spec_b 0
            (seeded_world seeded seed w))).
Proof.
  unfold BattleSimNumba.win_probability, bind, seeded_world.
  destruct seed as [s |]; unfold reseed, ret;
    match goal with |- context [BattleSimNumba.trials_py ?f ?n ?a ?b ?k ?w0] =>
      destruct (BattleSimNumba.trials_py f n a b k w0) as [[wins |] w'] end; reflexivity.
Qed.

Lemma no_trials (simulations : Z) : simulations <= 0 -> Z.to_nat simulations = 0%nat.
Proof. intros H. destruct simulations; try reflexivity. lia. Qed.

(** C7, as amended. Neither [win_probability] checks the trial count.  With a
    trial count of zero the call raises [ZeroDivisionError], at the final
    division; with a negative trial count it returns the quotient of 0 by the
    trial count, which is 0, and raises nothing.  In both cases no trial runs
    and no roll is drawn. *)
Theorem nonpositive_trial_count :
  forall (seeded : Z -> nat -> Die) (spec_a spec_b : Spec) (simulations : Z)
         (seed : option Z) (fuel : nat) (w : World),
    (simulations = 0 ->
     fst (BattleSim.win_probability seeded spec_a spec_b simulations seed fuel w)
     = ZeroDivisionError
     /\ fst (BattleSimNumba.win_probability seeded spec_a spec_b simulations seed fuel w)
        = ZeroDivisionError)
    /\ (simulations < 0 ->
        fst (BattleSim.win_probability seeded spec_a spec_b simulations seed fuel w)
        = Returned (inject_Z 0 / inject_Z simulations)
        /\ fst (BattleSimNumba.win_probability seeded spec_a spec_b simulations seed fuel w)
           = Returned (inject_Z 0 / inject_Z simulations)
        /\ (inject_Z 0 / inject_Z simulations == 0)%Q)
    /\ (simulations <= 0 ->
        snd (BattleSim.win_probability seeded spec_a spec_b simulations seed fuel w)
        = seeded_world seeded seed w
        /\ snd (BattleSimNumba.win_probability seeded spec_a spec_b simulations seed fuel w)
           = seeded_world seeded seed w).
Proof.
  intros seeded spec_a spec_b simulations seed fuel w.
  rewrite win_probability_eq, win_probability_py_eq. cbn [fst snd].
  split; [| split]; intros H; rewrite !no_trials by lia;
    rewrite trials_py_nil; cbn [trials fst snd ret]; unfold true_div.
  - subst simulations. split; reflexivity.
  - rewrite (proj2 (Z.eqb_neq simulations 0)) by lia.
    repeat split.
  - split; reflexivity.
Qed.

Lemma nonpositive_trial_count_witness :
  fst (BattleSim.win_probability toy_generator sudden_death_a sudden_death_b 0 (Some 1) 3
         (fresh []))
  = ZeroDivisionError
  /\ fst (BattleSimNumba.win_probability toy_generator sudden_death_a sudden_death_b 0
            (Some 1) 3 (fresh []))
     = ZeroDivisionError.
Proof.
  apply (nonpositive_trial_count toy_generator sudden_death_a sudden_death_b 0 (Some 1) 3
           (fresh [])).
  reflexivity.
Defined.

(** C7 as stated fails for a negative trial count: the call returns the
    number 0 (Python: the float -0.0) instead of raising. *)
Lemma negative_trial_count_returns :
  fst (BattleSim.win_probability toy_generator sudden_death_a sudden_death_b (-5) (Some 1) 3
         (fresh []))
  = Returned (inject_Z 0 / inject_Z (-5))
  /\ fst (BattleSimNumba.win_probability toy_generator sudden_death_a sudden_death_b (-5)
            (Some 1) 3 (fresh []))
     = Returned (inject_Z 0 / inject_Z (-5)).
Proof. split; reflexivity. Qed.




(** A spec with hull 0 and a cannon of damage -1. *)
Definition hulk : Spec := mkSpec 5 0 0 0 [] [-1].




(** ** The sudden-death scenario *)

(** The duel of the first scenario, read off a list of rolls, two to a round:
    A hits on a 5 or a Full hit, B on a Full hit only. *)
Fixpoint sudden_death (rounds : nat) (l : list Die) : option bool :=
  match rounds, l with
  | S rounds', d1 :: d2 :: rest =>
      if hits 2 1 d1 then Some true
      else if hits 1 1 d2 then Some false
      else sudden_death rounds' rest
  | _, _ => None
  end.

Lemma tape_of_app pre d rest : tape_of (pre ++ d :: rest) (length pre) = d.
Proof. unfold tape_of. apply nth_middle. Qed.

Lemma tape_of_app_next pre d1 d2 rest :
  tape_of (pre ++ d1 :: d2 :: rest) (S (length pre)) = d2.
Proof.
  replace (pre ++ d1 :: d2 :: rest) with ((pre ++ [d1]) ++ d2 :: rest)
    by now rewrite <- app_assoc.
  replace (S (length pre)) with (length (pre ++ [d1]))
    by (rewrite length_app; cbn; lia).
  apply tape_of_app.
Qed.

Lemma cannon_loop_py_sudden_death (rounds : nat) :
  forall pre l sh xch,
    length l = (2 * rounds)%nat ->
    fst (BattleSimNumba.cannon_loop_py rounds xch sudden_death_a sudden_death_b true 1 1
           (mkWorld (tape_of (pre ++ l)) (length pre) sh))
    = sudden_death rounds l.
Proof.
  induction rounds as [| rounds IH]; intros pre l sh xch Hlen; [reflexivity |].
  destruct l as [| d1 [| d2 rest]]; try (cbn in Hlen; lia).
  cbn [BattleSimNumba.cannon_loop_py sudden_death].
  unfold bind at 1. rewrite fire_sequence_py_volley.
  cbn [sudden_death_a sudden_death_b sp_cannons sp_computer sp_shield tape cursor volley].
  rewrite tape_of_app.
  destruct (hits 2 1 d1); cbn [fst snd Z.sub Z.leb Z.compare Z.pos_sub Z.opp Pos.compare
                                 Pos.compare_cont]; [reflexivity |].
  unfold bind at 1. rewrite fire_sequence_py_volley.
  cbn [tape cursor after_volley volley length Nat.add]. rewrite tape_of_app_next.
  destruct (hits 1 1 d2); cbn [fst snd]; [reflexivity |].
  change (1 <=? 0) with false. cbv iota. unfold after_volley.
  cbn [tape cursor shots length Nat.add map app fst snd].
  replace (pre ++ d1 :: d2 :: rest) with ((pre ++ [d1; d2]) ++ rest)
    by now rewrite <- app_assoc.
  replace (S (S (length pre))) with (length (pre ++ [d1; d2]))
    by (rewrite length_app; cbn; lia).
  apply IH. cbn in Hlen. lia.
Qed.

(** What one run of [_simulate_once] on the sudden-death ships returns, given
    the rolls [l] and fuel for [rounds] rounds of cannon fire. *)
Definition sudden_death_run (rounds : nat) (l : list Die) : option Z :=
  fst (call_simulate_once rounds (Ship_init sudden_death_a) (Ship_init sudden_death_b)
                          (fresh l)).

Lemma sudden_death_run_eq rounds l :
  length l = (2 * rounds)%nat ->
  sudden_death_run rounds l = option_map verdict (sudden_death rounds l).
Proof.
  intros Hlen. unfold sudden_death_run.
  rewrite simulate_once_refines by reflexivity.
  unfold plain_view. cbn [fst]. f_equal.
  unfold BattleSimNumba._battle_once_py.
  cbn [sudden_death_a sudden_death_b sp_hull sp_initiative sp_missiles sp_computer
       sp_shield Z.gtb Z.compare Pos.compare Pos.compare_cont].
  unfold bind at 1. rewrite fire_sequence_py_volley.
  cbn [volley fst snd Z.leb Z.compare]. rewrite after_volley_nil.
  unfold bind at 1. rewrite fire_sequence_py_volley.
  cbn [volley fst snd Z.leb Z.compare]. rewrite after_volley_nil.
  apply (cannon_loop_py_sudden_death rounds [] l [] 1 Hlen).
Qed.

(** ** Counting rolls *)

(** All the lists of [n] rolls: under independent uniform draws each of them
    is as likely as any other. *)
Fixpoint all_rolls (n : nat) : list (list Die) :=
  match n with
  | O => [[]]
  | S n' => flat_map (fun d => map (cons d) (all_rolls n')) all_dice
  end.

(** How many of the lists of [n] rolls satisfy [P]. *)
Definition count (P : list Die -> bool) (n : nat) : Z :=
  Z.of_nat (length (filter P (all_rolls n))).

Lemma all_rolls_length n : forall l, In l (all_rolls n) -> length l = n.
Proof.
  induction n as [| n IH]; intros l Hl.
  - destruct Hl as [<- | []]. reflexivity.
  - cbn [all_rolls] in Hl. apply in_flat_map in Hl. destruct Hl as (d & _ & Hl).
    apply in_map_iff in Hl. destruct Hl as (l' & <- & Hl'). cbn. now rewrite (IH l').
Qed.

Lemma filter_ext_in_length {A : Type} (P Q : A -> bool) (l : list A) :
  (forall x, In x l -> P x = Q x) -> length (filter P l) = length (filter Q l).
Proof.
  intros H. induction l as [| x l IH]; [reflexivity |]. cbn [filter].
  rewrite (H x (or_introl eq_refl)).
  destruct (Q x); cbn [length]; rewrite IH; auto; intros y Hy; apply H; now right.
Qed.

Lemma count_ext (P Q : list Die -> bool) (n : nat) :
  (forall l, length l = n -> P l = Q l) -> count P n = count Q n.
Proof.
  intros H. unfold count. f_equal. apply filter_ext_in_length.
  intros l Hl. apply H. now apply all_rolls_length.
Qed.

Lemma filter_map_cons (P : list Die -> bool) (d : Die) (L : list (list Die)) :
  length (filter P (map (cons d) L)) = length (filter (fun l => P (d :: l)) L).
Proof.
  induction L as [| l L IH]; [reflexivity |]. cbn [map filter].
  destruct (P (d :: l)); cbn [length]; now rewrite IH.
Qed.

Lemma count_S (P : list Die -> bool) (n : nat) :
  count P (S n)
  = count (fun l => P (D0 :: l)) n + count (fun l => P (D1 :: l)) n
    + count (fun l => P (D2 :: l)) n + count (fun l => P (D3 :: l)) n
    + count (fun l => P (D4 :: l)) n + count (fun l => P (D5 :: l)) n.
Proof.
  unfold count. cbn [all_rolls all_dice flat_map].
  rewrite ?filter_app, ?length_app, ?filter_map_cons. cbn [filter length]. lia.
Qed.

Lemma count_all (n : nat) : count (fun _ => true) n = 6 ^ Z.of_nat n.
Proof.
  induction n as [| n IH]; [reflexivity |].
  rewrite count_S, IH, Nat2Z.inj_succ, Z.pow_succ_r by lia. lia.
Qed.

Lemma count_none (n : nat) : count (fun _ => false) n = 0.
Proof.
  induction n as [| n IH]; [reflexivity |]. rewrite count_S, IH. reflexivity.
Qed.

Lemma count_const (c : bool) (n : nat) :
  count (fun _ => c) n = if c then 6 ^ Z.of_nat n else 0.
Proof. destruct c; [apply count_all | apply count_none]. Qed.

(** How many of the lists of rolls for [rounds] rounds lead the sudden-death
    duel to an end that [f] accepts. *)
Definition tally (f : option bool -> bool) (rounds : nat) : Z :=
  count (fun l => f (sudden_death rounds l)) (2 * rounds).

Lemma tally_S f rounds :
  tally f (S rounds)
  = 12 * (if f (Some true) then 36 ^ Z.of_nat rounds else 0)
    + 4 * (if f (Some false) then 36 ^ Z.of_nat rounds else 0)
    + 20 * tally f rounds.
Proof.
  unfold tally.
  replace (2 * S rounds)%nat with (S (S (2 * rounds))) by lia.
  rewrite count_S. rewrite !count_S.
  cbn [sudden_death].
  change (hits 2 1 D0) with false. change (hits 2 1 D1) with false.
  change (hits 2 1 D2) with false. change (hits 2 1 D3) with false.
  change (hits 2 1 D4) with true. change (hits 2 1 D5) with true.
  change (hits 1 1 D0) with false. change (hits 1 1 D1) with false.
  change (hits 1 1 D2) with false. change (hits 1 1 D3) with false.
  change (hits 1 1 D4) with false. change (hits 1 1 D5) with true.
  cbv iota. rewrite !count_const.
  replace (6 ^ Z.of_nat (2 * rounds)) with (36 ^ Z.of_nat rounds).
  - destruct (f (Some true)), (f (Some false)); lia.
  - rewrite Nat2Z.inj_mul, Z.pow_mul_r by lia. reflexivity.
Qed.

Lemma pow_pos_36 n : 0 < 36 ^ Z.of_nat n.
Proof. apply Z.pow_pos_nonneg; lia. Qed.

(** A has won within [rounds] rounds on three quarters of the lists of rolls
    on which the duel is over by then; the duel is still open on [20 ^ rounds]
    of the [36 ^ rounds] lists. *)
Lemma tally_a_wins rounds :
  4 * tally (fun r => match r with Some true => true | _ => false end) rounds
  = 3 * (36 ^ Z.of_nat rounds - 20 ^ Z.of_nat rounds).
Proof.
  induction rounds as [| rounds IH]; [reflexivity |].
  rewrite tally_S, Nat2Z.inj_succ, !Z.pow_succ_r by lia. lia.
Qed.

Lemma tally_b_wins rounds :
  4 * tally (fun r => match r with Some false => true | _ => false end) rounds
  = 36 ^ Z.of_nat rounds - 20 ^ Z.of_nat rounds.
Proof.
  induction rounds as [| rounds IH]; [reflexivity |].
  rewrite tally_S, Nat2Z.inj_succ, !Z.pow_succ_r by lia. lia.
Qed.

Lemma tally_open rounds :
  tally (fun r => match r with None => true | _ => false end) rounds
  = 20 ^ Z.of_nat rounds.
Proof.
  induction rounds as [| rounds IH]; [reflexivity |].
  rewrite tally_S, Nat2Z.inj_succ, !Z.pow_succ_r by lia. lia.
Qed.

(** ** The probability that A wins the sudden-death duel *)

(** The share of the lists of [n] rolls that satisfy [P]: the probability of
    [P] when the [n] rolls are independent and uniform. *)
Definition probability (P : list Die -> bool) (n : nat) : Q :=
  (inject_Z (count P n) / inject_Z (count (fun _ => true) n))%Q.

(** One run of [_simulate_once] returns a win for A, returns a win for B, or
    is still under way after [rounds] rounds. *)
Definition a_wins (rounds : nat) (l : list Die) : bool :=
  match sudden_death_run rounds l with Some v => v =? 1 | None => false end.

Definition b_wins (rounds : nat) (l : list Die) : bool :=
  match sudden_death_run rounds l with Some v => v =? -1 | None => false end.

Definition still_open (rounds : nat) (l : list Die) : bool :=
  match sudden_death_run rounds l with Some _ => false | None => true end.

Lemma count_a_wins rounds :
  4 * count (a_wins rounds) (2 * rounds)
  = 3 * (36 ^ Z.of_nat rounds - 20 ^ Z.of_nat rounds).
Proof.
  rewrite <- tally_a_wins. unfold tally. f_equal. apply count_ext.
  intros l Hl. unfold a_wins. rewrite (sudden_death_run_eq rounds l Hl).
  now destruct (sudden_death rounds l) as [[|] |].
Qed.

Lemma count_b_wins rounds :
  4 * count (b_wins rounds) (2 * rounds)
  = 36 ^ Z.of_nat rounds - 20 ^ Z.of_nat rounds.
Proof.
  rewrite <- tally_b_wins. unfold tally. f_equal. apply count_ext.
  intros l Hl. unfold b_wins. rewrite (sudden_death_run_eq rounds l Hl).
  now destruct (sudden_death rounds l) as [[|] |].
Qed.

Lemma count_still_open rounds :
  count (still_open rounds) (2 * rounds) = 20 ^ Z.of_nat rounds.
Proof.
  rewrite <- tally_open. unfold tally. apply count_ext.
  intros l Hl. unfold still_open. rewrite (sudden_death_run_eq rounds l Hl).
  now destruct (sudden_death rounds l) as [[|] |].
Qed.

Lemma count_rounds rounds : count (fun _ => true) (2 * rounds) = 36 ^ Z.of_nat rounds.
Proof. rewrite count_all, Nat2Z.inj_mul, Z.pow_mul_r by lia. reflexivity. Qed.

Lemma five_ninths_pow (n : nat) :
  ((5 # 9) ^ Z.of_nat n == inject_Z (20 ^ Z.of_nat n) / inject_Z (36 ^ Z.of_nat n))%Q.
Proof.
  rewrite !Zpower_Qpower by lia. rewrite <- Qdiv_power.
  apply Qpower_comp; reflexivity.
Qed.

Lemma inject_pow_nonzero n : ~ (inject_Z (36 ^ Z.of_nat n) == 0)%Q.
Proof.
  pose proof (pow_pos_36 n). unfold Qeq. cbn. lia.
Qed.

Lemma probability_a_wins rounds :
  (probability (a_wins rounds) (2 * rounds) == (3 # 4) * (1 - (5 # 9) ^ Z.of_nat rounds))%Q.
Proof.
  unfold probability. rewrite count_rounds, five_ninths_pow.
  assert (H : (inject_Z (count (a_wins rounds) (2 * rounds))
               == (3 # 4) * (inject_Z (36 ^ Z.of_nat rounds)
                             - inject_Z (20 ^ Z.of_nat rounds)))%Q).
  { assert (E : ((4 # 1) * inject_Z (count (a_wins rounds) (2 * rounds))
                 == (3 # 1) * (inject_Z (36 ^ Z.of_nat rounds)
                               - inject_Z (20 ^ Z.of_nat rounds)))%Q).
    { change (4 # 1)%Q with (inject_Z 4). change (3 # 1)%Q with (inject_Z 3).
      unfold Qminus. now rewrite <- inject_Z_opp, <- inject_Z_plus, <- !inject_Z_mult, count_a_wins. }
    setoid_replace (inject_Z (count (a_wins rounds) (2 * rounds)))
      with ((1 # 4) * ((4 # 1) * inject_Z (count (a_wins rounds) (2 * rounds))))%Q
      by ring.
    rewrite E. ring. }
  rewrite H. field. apply inject_pow_nonzero.
Qed.

Lemma probability_still_open rounds :
  (probability (still_open rounds) (2 * rounds) == (5 # 9) ^ Z.of_nat rounds)%Q.
Proof.
  unfold probability. rewrite count_rounds, count_still_open, five_ninths_pow.
  reflexivity.
Qed.

Lemma five_ninths_succ (n : nat) :
  ((5 # 9) ^ Z.of_nat (S n) == (5 # 9) ^ Z.of_nat n * (5 # 9))%Q.
Proof.
  rewrite Nat2Z.inj_succ. unfold Z.succ. rewrite Qpower_plus by discriminate.
  reflexivity.
Qed.

Lemma five_ninths_positive (n : nat) : (0 < (5 # 9) ^ Z.of_nat n)%Q.
Proof. apply Qpower_0_lt. reflexivity. Qed.

(** [(5/9) ^ n] is at most [5 / (4 n + 5)]. *)
Lemma five_ninths_small (n : nat) :
  ((5 # 9) ^ Z.of_nat n * (4 * inject_Z (Z.of_nat n) + 5) <= 5)%Q.
Proof.
  induction n as [| n IH].
  - unfold Qle. vm_compute. discriminate.
  - rewrite five_ninths_succ.
    pose proof (five_ninths_positive n) as Hq.
    assert (Hn : (0 <= inject_Z (Z.of_nat n))%Q).
    { change 0%Q with (inject_Z 0). rewrite <- Zle_Qle. lia. }
    assert (Hs : (inject_Z (Z.of_nat (S n)) == inject_Z (Z.of_nat n) + 1)%Q).
    { rewrite Nat2Z.inj_succ. unfold Z.succ. rewrite inject_Z_plus. reflexivity. }
    rewrite Hs.
    set (q := ((5 # 9) ^ Z.of_nat n)%Q) in *.
    set (x := inject_Z (Z.of_nat n)) in *.
    nra.
Qed.

Lemma positive_rational (eps : Q) :
  (0 < eps)%Q -> (1 <= eps * inject_Z (Z.pos (Qden eps)))%Q.
Proof.
  destruct eps as [num den]. unfold Qlt, Qle, Qmult, inject_Z. cbn. intros H.
  rewrite Pos.mul_1_r. nia.
Qed.

(** With enough rounds, [(3/4) (5/9) ^ rounds] is below any positive bound. *)
Lemma five_ninths_vanishes (eps : Q) (n : nat) :
  (0 < eps)%Q -> (Pos.to_nat (Qden eps) <= n)%nat ->
  ((3 # 4) * (5 # 9) ^ Z.of_nat n < eps)%Q.
Proof.
  intros Heps Hn.
  pose proof (five_ninths_positive n) as Hq.
  pose proof (five_ninths_small n) as Hs.
  pose proof (positive_rational eps Heps) as Hd.
  assert (Hx : (inject_Z (Z.pos (Qden eps)) <= inject_Z (Z.of_nat n))%Q).
  { rewrite <- Zle_Qle. lia. }
  assert (H1 : (1 <= inject_Z (Z.pos (Qden eps)))%Q).
  { change 1%Q with (inject_Z 1). rewrite <- Zle_Qle. lia. }
  set (q := ((5 # 9) ^ Z.of_nat n)%Q) in *.
  set (x := inject_Z (Z.of_nat n)) in *.
  set (d := inject_Z (Z.pos (Qden eps))) in *.
  destruct (Qlt_le_dec ((3 # 4) * q) eps) as [Hlt | Hge]; [exact Hlt | exfalso].
  assert (P1 : (0 <= ((3 # 4) * q - eps) * (4 * x + 5))%Q) by nra.
  assert (P2 : (0 <= eps * (x - d))%Q) by nra.
  nra.
Qed.

(** C2. For A = (initiative 5, hull 1, computer 2, shield 1, no missiles,
    cannons [1]) and B = (initiative 4, hull 1, computer 1, shield 1, no
    missiles, cannons [1]), under independent uniform rolls, one run of
    [_simulate_once] returns a win for A with probability 3/4: the
    probability that it has done so within [rounds] rounds is
    [3/4 (1 - (5/9) ^ rounds)], the probability that it is still under way
    after [rounds] rounds is [(5/9) ^ rounds], and so the former stays below
    3/4 and comes as close to 3/4 as one likes. *)
Theorem sudden_death_win_probability :
  (forall rounds : nat,
      probability (a_wins rounds) (2 * rounds)
      == (3 # 4) * (1 - (5 # 9) ^ Z.of_nat rounds))%Q
  /\ (forall rounds : nat,
         probability (still_open rounds) (2 * rounds) == (5 # 9) ^ Z.of_nat rounds)%Q
  /\ (forall eps : Q,
         (0 < eps)%Q ->
         exists N : nat,
           forall rounds : nat,
             (N <= rounds)%nat ->
             ((3 # 4) - eps < probability (a_wins rounds) (2 * rounds))%Q
             /\ (probability (a_wins rounds) (2 * rounds) < 3 # 4)%Q).
Proof.
  split; [exact probability_a_wins |]. split; [exact probability_still_open |].
  intros eps Heps. exists (Pos.to_nat (Qden eps)). intros rounds Hn.
  rewrite probability_a_wins.
  pose proof (five_ninths_vanishes eps rounds Heps Hn) as Hv.
  pose proof (five_ninths_positive rounds) as Hq.
  split; lra.
Qed.

Lemma sudden_death_win_probability_witness :
  exists N : nat,
    forall rounds : nat,
      (N <= rounds)%nat ->
      ((3 # 4) - (1 # 100) < probability (a_wins rounds) (2 * rounds))%Q
      /\ (probability (a_wins rounds) (2 * rounds) < 3 # 4)%Q.
Proof.
  apply (proj2 (proj2 sudden_death_win_probability) (1 # 100)%Q).
  reflexivity.
Defined.

(** After one round A has won on 12 of the 36 pairs of rolls, after two
    rounds on 672 of the 1296 lists of four rolls. *)
Example a_wins_within_two_rounds :
  count (a_wins 1) 2 = 12 /\ count (a_wins 2) 4 = 672
  /\ count (b_wins 2) 4 = 224 /\ count (still_open 2) 4 = 400.
Proof. repeat split; vm_compute; reflexivity. Qed.

(** * Further properties of the resolvers *)

(** ** One volley *)

Lemma volley_length tp c comp sh dmgs :
  forall hp,
    (length (snd (volley tp c comp sh dmgs hp)) <= length dmgs)%nat
    /\ (0 < fst (volley tp c comp sh dmgs hp) ->
        length (snd (volley tp c comp sh dmgs hp)) = length dmgs).
Proof.
  revert c. induction dmgs as [| dmg rest IH]; intros c hp; cbn [volley].
  - split; [apply le_n | reflexivity].
  - destruct (hits comp sh (tp c)).
    + destruct (hp - dmg <=? 0) eqn:E.
      * cbn [fst snd length]. split; [lia |].
        intros H. apply Z.leb_le in E. lia.
      * destruct (IH (S c) (hp - dmg)) as [H1 H2].
        destruct (volley tp (S c) comp sh rest (hp - dmg)) as [hp' l].
        cbn [fst snd length] in *. split; [lia |]. intros H. now rewrite H2.
    + destruct (IH (S c) hp) as [H1 H2].
      destruct (volley tp (S c) comp sh rest hp) as [hp' l].
      cbn [fst snd length] in *. split; [lia |]. intros H. now rewrite H2.
Qed.

Lemma fire_mem_target xch self l m :
  get (other self) (fire_mem xch self l m)
  = set_hull (get (other self) m)
      (fst (volley (tape (rng m)) (cursor (rng m)) (computer (get self m))
                   (shield (get (other self) m)) l (hull (get (other self) m)))).
Proof. destruct self; reflexivity. Qed.

(** X1. A volley of the plain resolver draws one roll for each shot it
    records and at most one for each weapon, and it goes through the whole
    weapon list unless it leaves the target destroyed: only the shot that
    brings the target's hull to 0 or below ends it early. *)
Theorem volley_stops_only_at_the_kill :
  forall (xch : nat) (self : Side) (weapon : list Z) (m : Mem),
    exists fired : nat,
      cursor (rng (snd (_fire xch self (other self) weapon m)))
      = (fired + cursor (rng m))%nat
      /\ length (shots (rng (snd (_fire xch self (other self) weapon m))))
         = (length (shots (rng m)) + fired)%nat
      /\ (fired <= length weapon)%nat
      /\ (fired = length weapon
          \/ hull (get (other self) (snd (_fire xch self (other self) weapon m))) <= 0).
Proof.
  intros xch self weapon m. rewrite fire_volley. cbn zeta. cbn [snd].
  fold (fire_mem xch self weapon m).
  rewrite fire_mem_rng, fire_mem_target.
  destruct (volley_length (tape (rng m)) (cursor (rng m)) (computer (get self m))
              (shield (get (other self) m)) weapon (hull (get (other self) m)))
    as [Hle Hall].
  set (v := volley (tape (rng m)) (cursor (rng m)) (computer (get self m))
                   (shield (get (other self) m)) weapon (hull (get (other self) m))) in *.
  exists (length (snd v)). unfold after_volley. cbn [cursor shots set_hull hull].
  repeat split.
  - now rewrite length_app, length_map.
  - exact Hle.
  - destruct (Z_lt_le_dec 0 (fst v)) as [Hpos | Hneg]; [left; auto | now right].
Qed.

(** ** What a duel keeps *)

(** Whatever every volley keeps, the cannon phase and the whole duel keep. *)
Section Invariant.

Variable P : Mem -> Prop.
Hypothesis P_fire :
  forall xch self l m,
    P m -> l = missiles (get self m) \/ l = cannons (get self m) ->
    P (fire_mem xch self l m).

Lemma cannon_phase_keeps fuel :
  forall xch first m, P m -> P (snd (cannon_phase fuel xch first (other first) m)).
Proof.
  induction fuel as [| fuel IH]; intros xch first m Hm; rewrite cannon_phase_step;
    destruct (negb (_destroyed (obj_a m)) && negb (_destroyed (obj_b m)));
    cbn [snd]; try exact Hm.
  cbn zeta.
  destruct (_destroyed (get (other first)
              (fire_mem xch first (cannons (get first m)) m))); cbn [snd].
  - apply P_fire; auto.
  - apply IH. apply P_fire; auto.
Qed.

Lemma simulate_once_keeps fuel m : P m -> P (snd (_simulate_once fuel m)).
Proof.
  intros Hm. rewrite simulate_once_step. cbn zeta. rewrite !fire_mem_if.
  set (first := if initiative (obj_a m) >? initiative (obj_b m) then SideA else SideB).
  set (m1 := fire_mem 0 first (missiles (get first m)) m).
  assert (H1 : P m1) by (apply P_fire; auto).
  destruct (truthy (missiles (get first m)) && _destroyed (get (other first) m1));
    cbn [snd]; [exact H1 |].
  set (m2 := fire_mem 0 (other first) (missiles (get (other first) m1)) m1).
  assert (H2 : P m2) by (apply P_fire; auto).
  destruct (truthy (missiles (get (other first) m1)) && _destroyed (get first m2));
    cbn [snd]; [exact H2 |].
  pose proof (cannon_phase_keeps fuel 1 first m2 H2) as H3.
  destruct (cannon_phase fuel 1 first (other first) m2) as [[[] |] m3]; cbn [snd] in *.
  - destruct (_destroyed (obj_a m3) && _destroyed (obj_b m3)); exact H3.
  - exact H3.
Qed.

End Invariant.

(** The fields of a ship that no method assigns. *)
Definition build (s : Ship) : Z * Z * Z * list Z * list Z :=
  (initiative s, computer s, shield s, missiles s, cannons s).

Lemma fire_mem_build xch self l m r :
  build (get r (fire_mem xch self l m)) = build (get r m).
Proof. destruct self, r; reflexivity. Qed.

(** X2. A duel of the plain resolver assigns nothing but hulls: whatever the
    rolls and the fuel, the initiative, computer and shield of both ships
    and their missile and cannon lists are after [_simulate_once] what they
    were before. *)
Theorem duel_mutates_only_hulls :
  forall (fuel : nat) (a b : Ship) (w : World),
    build (obj_a (snd (_simulate_once fuel (mkMem w a b)))) = build a
    /\ build (obj_b (snd (_simulate_once fuel (mkMem w a b)))) = build b.
Proof.
  intros fuel a b w.
  apply (simulate_once_keeps
           (fun m => build (obj_a m) = build a /\ build (obj_b m) = build b)).
  - intros xch self l m [Ha Hb] _. split.
    + exact (eq_trans (fire_mem_build xch self l m SideA) Ha).
    + exact (eq_trans (fire_mem_build xch self l m SideB) Hb).
  - split; reflexivity.
Qed.

Lemma volley_le tp comp sh dmgs :
  Forall (fun dmg => 0 <= dmg) dmgs ->
  forall c hp, fst (volley tp c comp sh dmgs hp) <= hp.
Proof.
  induction 1 as [| dmg rest Hd _ IH]; intros c hp; cbn [volley fst]; [lia |].
  destruct (hits comp sh (tp c)).
  - destruct (hp - dmg <=? 0); cbn [fst]; [lia |].
    specialize (IH (S c) (hp - dmg)).
    destruct (volley tp (S c) comp sh rest (hp - dmg)). cbn [fst] in *. lia.
  - specialize (IH (S c) hp).
    destruct (volley tp (S c) comp sh rest hp). cbn [fst] in *. lia.
Qed.

(** No weapon of the ship has a negative damage value. *)
Definition harmful (s : Ship) : Prop :=
  Forall (fun dmg => 0 <= dmg) (missiles s) /\ Forall (fun dmg => 0 <= dmg) (cannons s).

Lemma build_harmful s s' : build s = build s' -> harmful s' -> harmful s.
Proof.
  unfold build, harmful. intros E H. injection E as _ _ _ Hm Hc.
  now rewrite Hm, Hc.
Qed.

(** X3. When no weapon has a negative damage value, a ship's hull never
    grows in a duel of the plain resolver: whatever the rolls and the fuel,
    each hull is after [_simulate_once] at most what it was before. *)
Theorem hulls_never_grow :
  forall (fuel : nat) (a b : Ship) (w : World),
    harmful a -> harmful b ->
    hull (obj_a (snd (_simulate_once fuel (mkMem w a b)))) <= hull a
    /\ hull (obj_b (snd (_simulate_once fuel (mkMem w a b)))) <= hull b.
Proof.
  intros fuel a b w Ha Hb.
  enough (H : (fun m => (build (obj_a m) = build a /\ build (obj_b m) = build b)
                        /\ hull (obj_a m) <= hull a /\ hull (obj_b m) <= hull b)
                (snd (_simulate_once fuel (mkMem w a b)))) by exact (proj2 H).
  apply simulate_once_keeps.
  - intros xch self l m [[Ba Bb] [La Lb]] Hl.
    split.
    { split.
      - exact (eq_trans (fire_mem_build xch self l m SideA) Ba).
      - exact (eq_trans (fire_mem_build xch self l m SideB) Bb). }
    assert (Hself : harmful (get self m)).
    { destruct self; cbn [get]; [exact (build_harmful _ _ Ba Ha)
                                | exact (build_harmful _ _ Bb Hb)]. }
    assert (Hdmg : Forall (fun dmg => 0 <= dmg) l).
    { destruct Hl as [-> | ->]; apply Hself. }
    pose proof (volley_le (tape (rng m)) (computer (get self m))
                  (shield (get (other self) m)) l Hdmg (cursor (rng m))
                  (hull (get (other self) m))) as Hv.
    destruct self; cbn [get other] in Hv; unfold fire_mem;
      cbn [get other put with_rng obj_a obj_b set_hull hull]; lia.
  - cbn [obj_a obj_b]. repeat split; lia.
Qed.

Lemma hulls_never_grow_witness :
  hull (obj_a (snd (_simulate_once 4 (mkMem (fresh [D1; D5]) (Ship_init sudden_death_a)
                                        (Ship_init sudden_death_b)))))
  <= hull (Ship_init sudden_death_a)
  /\ hull (obj_b (snd (_simulate_once 4 (mkMem (fresh [D1; D5]) (Ship_init sudden_death_a)
                                           (Ship_init sudden_death_b)))))
     <= hull (Ship_init sudden_death_b).
Proof.
  apply (hulls_never_grow 4 (Ship_init sudden_death_a) (Ship_init sudden_death_b)
           (fresh [D1; D5]));
    split; repeat constructor; discriminate.
Defined.

(** A weapon with a negative damage value repairs its target: a hit of the
    missile of damage -3 takes B's hull from 1 to 4. *)
Example negative_damage_repairs :
  hull (obj_b (snd (_simulate_once 0 (mkMem (fresh [D5]) (mkShip 5 1 0 0 [-3] [])
                                        (mkShip 4 1 0 0 [] [])))))
  = 4.
Proof. reflexivity. Qed.

(** ** The verdict and the hulls *)

Lemma cannon_phase_one_left fuel xch first m :
  both_destroyed m = false ->
  fst (cannon_phase fuel xch first (other first) m) = Some tt ->
  _destroyed (obj_a (snd (cannon_phase fuel xch first (other first) m)))
  = negb (_destroyed (obj_b (snd (cannon_phase fuel xch first (other first) m)))).
Proof.
  intros Hm Hleft.
  pose proof (cannon_phase_left fuel xch first m Hleft) as H1.
  pose proof (cannon_phase_no_draw fuel xch first m) as H2.
  unfold both_destroyed in H2 at 1.
  destruct (_destroyed (obj_a (snd (cannon_phase fuel xch first (other first) m)))),
           (_destroyed (obj_b (snd (cannon_phase fuel xch first (other first) m))));
    try reflexivity; try discriminate.
  destruct (H2 eq_refl) as [_ H3]. congruence.
Qed.

(** X4. Between two ships whose starting hulls are positive, the verdict of
    the plain resolver tells the hulls: when [_simulate_once] returns 1, B's
    hull is at or below 0 and A's is positive, and when it returns -1 it is
    the other way round. *)
Theorem winner_has_hull_left :
  forall (fuel : nat) (a b : Ship) (w : World),
    0 < hull a -> 0 < hull b ->
    (fst (_simulate_once fuel (mkMem w a b)) = Some 1 ->
     0 < hull (obj_a (snd (_simulate_once fuel (mkMem w a b))))
     /\ hull (obj_b (snd (_simulate_once fuel (mkMem w a b)))) <= 0)
    /\ (fst (_simulate_once fuel (mkMem w a b)) = Some (-1) ->
        hull (obj_a (snd (_simulate_once fuel (mkMem w a b)))) <= 0
        /\ 0 < hull (obj_b (snd (_simulate_once fuel (mkMem w a b))))).
Proof.
  intros fuel a b w Ha Hb.
  set (m := mkMem w a b).
  assert (Hall : forall r, _destroyed (get r m) = false).
  { intros []; cbn [get m obj_a obj_b]; now apply leb_pos_false. }
  assert (Hpos : forall s, _destroyed s = false -> 0 < hull s).
  { intros s. unfold _destroyed. apply Z.leb_gt. }
  assert (Hneg : forall s, _destroyed s = true -> hull s <= 0).
  { intros s. unfold _destroyed. apply Z.leb_le. }
  rewrite simulate_once_step. cbn zeta. rewrite !fire_mem_if.
  set (first := if initiative (obj_a m) >? initiative (obj_b m) then SideA else SideB).
  set (m1 := fire_mem 0 first (missiles (get first m)) m).
  assert (F1 : _destroyed (get first m1) = false).
  { unfold m1. rewrite fire_mem_self. apply Hall. }
  assert (S1 : truthy (missiles (get first m)) && _destroyed (get (other first) m1) = false ->
               _destroyed (get (other first) m1) = false).
  { destruct (truthy (missiles (get first m))) eqn:T; cbn [andb]; [auto |].
    intros _. unfold m1. rewrite (truthy_false _ T), fire_mem_nil. apply Hall. }
  destruct (truthy (missiles (get first m)) && _destroyed (get (other first) m1)) eqn:K1.
  { apply andb_prop in K1. destruct K1 as [_ K1]. cbn [fst snd].
    destruct first; cbn [Side_eqb get other] in *;
      (split; intros E; [| try discriminate E]; try discriminate E; auto). }
  specialize (S1 eq_refl).
  set (m2 := fire_mem 0 (other first) (missiles (get (other first) m1)) m1).
  assert (S2 : _destroyed (get (other first) m2) = false).
  { unfold m2. now rewrite fire_mem_self. }
  assert (F2 : truthy (missiles (get (other first) m1)) && _destroyed (get first m2) = false ->
               _destroyed (get first m2) = false).
  { destruct (truthy (missiles (get (other first) m1))) eqn:T; cbn [andb]; [auto |].
    intros _. unfold m2. now rewrite (truthy_false _ T), fire_mem_nil. }
  destruct (truthy (missiles (get (other first) m1)) && _destroyed (get first m2)) eqn:K2.
  { apply andb_prop in K2. destruct K2 as [_ K2]. cbn [fst snd].
    destruct first; cbn [Side_eqb get other] in *;
      (split; intros E; [| try discriminate E]; try discriminate E; auto). }
  specialize (F2 eq_refl).
  assert (B2 : both_destroyed m2 = false).
  { rewrite (both_destroyed_get first), F2. reflexivity. }
  pose proof (cannon_phase_one_left fuel 1 first m2 B2) as H3.
  destruct (cannon_phase fuel 1 first (other first) m2) as [[[] |] m3]; cbn [fst snd] in *;
    [| split; discriminate].
  specialize (H3 eq_refl).
  destruct (_destroyed (obj_a m3)) eqn:Da, (_destroyed (obj_b m3)) eqn:Db;
    cbn [negb andb fst snd] in *; try discriminate H3;
    (split; intros E; try discriminate E; auto).
Qed.

Lemma winner_has_hull_left_witness :
  (fst (_simulate_once 4 (mkMem (fresh [D1; D5]) (Ship_init sudden_death_a)
                            (Ship_init sudden_death_b))) = Some 1 ->
   0 < hull (obj_a (snd (_simulate_once 4 (mkMem (fresh [D1; D5])
                                              (Ship_init sudden_death_a)
                                              (Ship_init sudden_death_b)))))
   /\ hull (obj_b (snd (_simulate_once 4 (mkMem (fresh [D1; D5])
                                            (Ship_init sudden_death_a)
                                            (Ship_init sudden_death_b))))) <= 0)
  /\ (fst (_simulate_once 4 (mkMem (fresh [D1; D5]) (Ship_init sudden_death_a)
                               (Ship_init sudden_death_b))) = Some (-1) ->
      hull (obj_a (snd (_simulate_once 4 (mkMem (fresh [D1; D5])
                                            (Ship_init sudden_death_a)
                                            (Ship_init sudden_death_b))))) <= 0
      /\ 0 < hull (obj_b (snd (_simulate_once 4 (mkMem (fresh [D1; D5])
                                                  (Ship_init sudden_death_a)
                                                  (Ship_init sudden_death_b)))))).
Proof.
  apply (winner_has_hull_left 4 (Ship_init sudden_death_a) (Ship_init sudden_death_b)
           (fresh [D1; D5])); reflexivity.
Defined.

(** Where a starting hull is 0 the verdict tells less: here B, with hull 0
    and a missile, is named the winner. *)
Example destroyed_winner :
  fst (_simulate_once 1 (mkMem (fresh [D5]) (mkShip 5 1 0 0 [] [1]) (mkShip 4 0 0 0 [1] [])))
  = Some (-1)
  /\ hull (obj_b (snd (_simulate_once 1 (mkMem (fresh [D5]) (mkShip 5 1 0 0 [] [1])
                                           (mkShip 4 0 0 0 [1] [])))))
     = 0.
Proof. split; reflexivity. Qed.

(** ** Duels without cannons *)

Lemma cannon_phase_without_cannons fuel :
  forall xch first m,
    cannons (obj_a m) = [] -> cannons (obj_b m) = [] ->
    cannon_phase fuel xch first (other first) m
    = (if negb (_destroyed (obj_a m)) && negb (_destroyed (obj_b m))
       then None else Some tt, m).
Proof.
  induction fuel as [| fuel IH]; intros xch first m Ha Hb; rewrite cannon_phase_step;
    destruct (negb (_destroyed (obj_a m)) && negb (_destroyed (obj_b m))) eqn:Hc;
    try reflexivity.
  assert (Hcan : forall r, cannons (get r m) = []) by (intros []; assumption).
  cbn zeta. rewrite Hcan, fire_mem_nil, Hcan, fire_mem_nil.
  assert (Hs : _destroyed (get (other first) m) = false).
  { destruct first; cbn [get other];
      destruct (_destroyed (obj_a m)), (_destroyed (obj_b m)); simpl in *; congruence. }
  rewrite Hs, (IH (S xch) first m Ha Hb), Hc. reflexivity.
Qed.

Lemma cannon_loop_py_without_cannons spec_a spec_b a_first fuel :
  sp_cannons spec_a = [] -> sp_cannons spec_b = [] ->
  forall xch a_hp b_hp w,
    0 < a_hp -> 0 < b_hp ->
    BattleSimNumba.cannon_loop_py fuel xch spec_a spec_b a_first a_hp b_hp w = (None, w).
Proof.
  intros Ha Hb. induction fuel as [| fuel IH]; intros xch a_hp b_hp w Hpa Hpb;
    [reflexivity |].
  cbn [BattleSimNumba.cannon_loop_py]. rewrite Ha, Hb.
  destruct a_first; unfold bind at 1; rewrite fire_sequence_py_volley;
    cbn [volley fst snd]; rewrite after_volley_nil;
    rewrite ?(leb_pos_false _ Hpa), ?(leb_pos_false _ Hpb);
    unfold bind at 1; rewrite fire_sequence_py_volley;
    cbn [volley fst snd]; rewrite after_volley_nil;
    rewrite ?(leb_pos_false _ Hpa), ?(leb_pos_false _ Hpb); now apply IH.
Qed.

Lemma simulate_once_without_cannons spec_a spec_b w fuel :
  sp_cannons spec_a = [] -> sp_cannons spec_b = [] ->
  _simulate_once fuel (mkMem w (Ship_init spec_a) (Ship_init spec_b))
  = _simulate_once 0 (mkMem w (Ship_init spec_a) (Ship_init spec_b)).
Proof.
  intros Ha Hb. rewrite !simulate_once_step. cbn zeta.
  set (m := mkMem w (Ship_init spec_a) (Ship_init spec_b)).
  set (first := if initiative (obj_a m) >? initiative (obj_b m) then SideA else SideB).
  rewrite !fire_mem_if.
  set (m2 := fire_mem 0 (other first) _ _).
  assert (Hk : build (obj_a m2) = build (obj_a m) /\ build (obj_b m2) = build (obj_b m)).
  { unfold m2. split.
    - exact (eq_trans (fire_mem_build 0 (other first) _ _ SideA)
                      (fire_mem_build 0 first _ m SideA)).
    - exact (eq_trans (fire_mem_build 0 (other first) _ _ SideB)
                      (fire_mem_build 0 first _ m SideB)). }
  destruct Hk as [Ka Kb]. unfold build in Ka, Kb.
  injection Ka as _ _ _ _ Ca. injection Kb as _ _ _ _ Cb.
  cbn [m obj_a obj_b Ship_init cannons] in Ca, Cb.
  rewrite !cannon_phase_without_cannons by congruence. reflexivity.
Qed.

Lemma battle_once_py_without_cannons spec_a spec_b w fuel :
  sp_cannons spec_a = [] -> sp_cannons spec_b = [] ->
  BattleSimNumba._battle_once_py fuel spec_a spec_b w
  = BattleSimNumba._battle_once_py 0 spec_a spec_b w.
Proof.
  intros Ha Hb. unfold BattleSimNumba._battle_once_py. cbn zeta.
  destruct (sp_initiative spec_a >? sp_initiative spec_b);
    unfold bind at 1 3;
    match goal with |- context [BattleSimNumba._fire_sequence_py ?a ?b ?c ?d ?e ?f ?g ?h] =>
      destruct (BattleSimNumba._fire_sequence_py a b c d e f g h) as [hp1 w1] end;
    (destruct (hp1 <=? 0) eqn:E1; [reflexivity |]);
    unfold bind at 1 2;
    match goal with |- context [BattleSimNumba._fire_sequence_py ?a ?b ?c ?d ?e ?f ?g ?h] =>
      destruct (BattleSimNumba._fire_sequence_py a b c d e f g h) as [hp2 w2] end;
    (destruct (hp2 <=? 0) eqn:E2; [reflexivity |]);
    apply Z.leb_gt in E1, E2;
    rewrite !cannon_loop_py_without_cannons by assumption; reflexivity.
Qed.

(** X5. When neither spec has a cannon, the cannon loop decides nothing: in
    the plain resolver and in the fallback a duel ends in the missile phase
    or not at all, so that the run is the same whatever the number of rounds
    it is given. *)
Theorem cannonless_duel_is_over_after_the_missiles :
  forall (spec_a spec_b : Spec) (w : World) (fuel : nat),
    sp_cannons spec_a = [] -> sp_cannons spec_b = [] ->
    _simulate_once fuel (mkMem w (Ship_init spec_a) (Ship_init spec_b))
    = _simulate_once 0 (mkMem w (Ship_init spec_a) (Ship_init spec_b))
    /\ BattleSimNumba._battle_once_py fuel spec_a spec_b w
       = BattleSimNumba._battle_once_py 0 spec_a spec_b w.
Proof.
  intros spec_a spec_b w fuel Ha Hb. split.
  - now apply simulate_once_without_cannons.
  - now apply battle_once_py_without_cannons.
Qed.

(** Two ships with a missile each and no cannon. *)
Definition missile_only_a : Spec := mkSpec 5 1 0 0 [1] [].
Definition missile_only_b : Spec := mkSpec 4 1 0 0 [1] [].

Lemma cannonless_duel_witness :
  _simulate_once 7 (mkMem (fresh [D0; D0]) (Ship_init missile_only_a)
                          (Ship_init missile_only_b))
  = _simulate_once 0 (mkMem (fresh [D0; D0]) (Ship_init missile_only_a)
                            (Ship_init missile_only_b))
  /\ BattleSimNumba._battle_once_py 7 missile_only_a missile_only_b (fresh [D0; D0])
     = BattleSimNumba._battle_once_py 0 missile_only_a missile_only_b (fresh [D0; D0]).
Proof.
  apply (cannonless_duel_is_over_after_the_missiles missile_only_a missile_only_b
           (fresh [D0; D0]) 7); reflexivity.
Defined.

(** After two missiles that miss, that duel never ends. *)
Example missiles_missed :
  fst (_simulate_once 7 (mkMem (fresh [D0; D0]) (Ship_init missile_only_a)
                               (Ship_init missile_only_b))) = None.
Proof. reflexivity. Qed.

(** ** Specs without weapons *)

Lemma trials_out_of_fuel fuel spec_a spec_b n wins w :
  fst (call_simulate_once fuel (Ship_init spec_a) (Ship_init spec_b) w) = None ->
  fst (trials fuel (S n) spec_a spec_b wins w) = None.
Proof. intros H. rewrite trials_step, H. reflexivity. Qed.

Lemma trials_py_out_of_fuel fuel spec_a spec_b n wins w :
  fst (BattleSimNumba._battle_once_py fuel spec_a spec_b w) = None ->
  fst (BattleSimNumba.trials_py fuel (S n) spec_a spec_b wins w) = None.
Proof.
  intros H. cbn [BattleSimNumba.trials_py]. unfold bind.
  destruct (BattleSimNumba._battle_once_py fuel spec_a spec_b w) as [[won |] w'];
    [discriminate | reflexivity].
Qed.

(** X6. A call of [win_probability] on two specs with positive hulls and no
    weapon at all never returns, in either module: with a positive trial
    count its first duel is still running after any number of rounds. *)
Theorem unarmed_specs_never_return :
  forall (seeded : Z -> nat -> Die) (spec_a spec_b : Spec) (simulations : Z)
         (seed : option Z) (fuel : nat) (w : World),
    0 < sp_hull spec_a -> 0 < sp_hull spec_b ->
    sp_missiles spec_a = [] -> sp_cannons spec_a = [] ->
    sp_missiles spec_b = [] -> sp_cannons spec_b = [] ->
    0 < simulations ->
    fst (BattleSim.win_probability seeded spec_a spec_b simulations seed fuel w)
    = OutOfFuel
    /\ fst (BattleSimNumba.win_probability seeded spec_a spec_b simulations seed fuel w)
       = OutOfFuel.
Proof.
  intros seeded spec_a spec_b simulations seed fuel w Ha Hb Ma Ca Mb Cb Hn.
  rewrite win_probability_eq, win_probability_py_eq. cbn [fst].
  destruct (Z.to_nat simulations) as [| n] eqn:En; [lia |].
  assert (Hplain : forall w0,
             fst (call_simulate_once fuel (Ship_init spec_a) (Ship_init spec_b) w0) = None).
  { intros w0. rewrite call_simulate_once_eq. cbn [fst].
    rewrite simulate_once_without_cannons, simulate_once_step by assumption.
    cbn [obj_a obj_b Ship_init initiative missiles get]. cbn zeta.
    assert (T : forall r, truthy (missiles (get r (mkMem w0 (Ship_init spec_a)
                                                     (Ship_init spec_b)))) = false).
    { intros []; cbn [get obj_a obj_b Ship_init missiles]; [rewrite Ma | rewrite Mb];
        reflexivity. }
    rewrite !T. cbn [andb]. rewrite ?T. cbn [andb].
    rewrite cannon_phase_step. unfold _destroyed. cbn [obj_a obj_b Ship_init hull].
    rewrite (leb_pos_false _ Ha), (leb_pos_false _ Hb). reflexivity. }
  assert (Hpy : forall w0, fst (BattleSimNumba._battle_once_py fuel spec_a spec_b w0) = None).
  { intros w0. rewrite battle_once_py_without_cannons by assumption.
    unfold BattleSimNumba._battle_once_py. cbn zeta. rewrite Ma, Mb.
    destruct (sp_initiative spec_a >? sp_initiative spec_b);
      unfold bind at 1; rewrite fire_sequence_py_volley; cbn [volley fst snd];
      rewrite ?(leb_pos_false _ Ha), ?(leb_pos_false _ Hb);
      unfold bind at 1; rewrite fire_sequence_py_volley; cbn [volley fst snd];
      rewrite ?(leb_pos_false _ Ha), ?(leb_pos_false _ Hb); reflexivity. }
  rewrite (trials_out_of_fuel _ _ _ _ _ _ (Hplain _)).
  rewrite (trials_py_out_of_fuel _ _ _ _ _ _ (Hpy _)). split; reflexivity.
Qed.

Lemma unarmed_specs_never_return_witness :
  fst (BattleSim.win_probability toy_generator (mkSpec 5 3 1 1 [] []) (mkSpec 4 3 1 1 [] [])
         10 (Some 1) 50 (fresh []))
  = OutOfFuel
  /\ fst (BattleSimNumba.win_probability toy_generator (mkSpec 5 3 1 1 [] [])
            (mkSpec 4 3 1 1 [] []) 10 (Some 1) 50 (fresh []))
     = OutOfFuel.
Proof.
  apply (unarmed_specs_never_return toy_generator (mkSpec 5 3 1 1 [] [])
           (mkSpec 4 3 1 1 [] []) 10 (Some 1) 50 (fresh [])); reflexivity.
Defined.

(** ** The JIT core and the fallback *)

(** A damage value that fits the 32-bit arrays of the JIT core and repairs
    nothing. *)
Definition int32_damage (dmg : Z) : Prop := 0 <= dmg < 2 ^ 31.

(** A spec on which no 64-bit sum of the JIT core wraps around. *)
Definition int64_safe (spec : Spec) : Prop :=
  - 2 ^ 61 <= sp_computer spec < 2 ^ 61
  /\ - 2 ^ 61 <= sp_shield spec < 2 ^ 61
  /\ - 2 ^ 62 <= sp_hull spec < 2 ^ 62
  /\ Forall int32_damage (sp_missiles spec)
  /\ Forall int32_damage (sp_cannons spec).


Lemma fire_sequence_in_range who xch own comp sh dmgs :
  - 2 ^ 61 <= comp < 2 ^ 61 -> - 2 ^ 61 <= sh < 2 ^ 61 ->
  Forall int32_damage dmgs ->
  forall hp w,
    - 2 ^ 62 <= hp < 2 ^ 62 ->
    BattleSimNumba._fire_sequence who xch own dmgs comp sh hp w
    = BattleSimNumba._fire_sequence_py who xch own dmgs comp sh hp w.
Proof.
  intros Hc Hs Hd. induction Hd as [| dmg rest Hdmg _ IH]; intros hp w Hhp;
    [reflexivity |].
  assert (P1 : 2 ^ 63 = 2 * 2 ^ 62) by reflexivity.
  assert (P2 : 2 ^ 31 < 2 ^ 62) by reflexivity.
  unfold int32_damage in Hdmg.
  cbn [BattleSimNumba._fire_sequence BattleSimNumba._fire_sequence_py].
  unfold bind at 1 3. rewrite roll_hit_step, roll_hit_py_step by assumption.
  unfold bind at 1 2, record_shot at 1 2.
  rewrite (wrap64_small (hp - dmg)) by lia.
  destruct (hits comp sh (tape w (cursor w))); [| now apply IH].
  destruct (hp - dmg <=? 0) eqn:E; [reflexivity |].
  apply IH. apply Z.leb_gt in E. lia.
Qed.

Lemma fire_sequence_py_le who xch own comp sh dmgs hp w :
  Forall int32_damage dmgs ->
  fst (BattleSimNumba._fire_sequence_py who xch own dmgs comp sh hp w) <= hp.
Proof.
  intros Hd. rewrite fire_sequence_py_volley. cbn [fst]. apply volley_le.
  eapply Forall_impl; [| exact Hd]. unfold int32_damage. intros d H. lia.
Qed.

(** The verdict of the JIT core for the fallback's. *)
Definition jit_view (p : option bool * World) : option Z * World :=
  (option_map (fun won : bool => if won then 1 else 0) (fst p), snd p).

Lemma cannon_loop_in_range spec_a spec_b a_first fuel :
  int64_safe spec_a -> int64_safe spec_b ->
  forall xch a_hp b_hp w,
    0 < a_hp < 2 ^ 62 -> 0 < b_hp < 2 ^ 62 ->
    BattleSimNumba.cannon_loop fuel xch a_first
      (sp_computer spec_a) (sp_shield spec_a) (sp_cannons spec_a)
      (sp_computer spec_b) (sp_shield spec_b) (sp_cannons spec_b) a_hp b_hp w
    = jit_view (BattleSimNumba.cannon_loop_py fuel xch spec_a spec_b a_first a_hp b_hp w).
Proof.
  intros (Ca & Sa & _ & _ & Da) (Cb & Sb & _ & _ & Db).
  assert (P : 0 < 2 ^ 62) by reflexivity.
  induction fuel as [| fuel IH]; intros xch a_hp b_hp w Ha Hb; [reflexivity |].
  cbn [BattleSimNumba.cannon_loop BattleSimNumba.cannon_loop_py].
  destruct a_first; unfold bind at 1 3;
    rewrite fire_sequence_in_range by (assumption || lia);
    match goal with |- context [BattleSimNumba._fire_sequence_py ?a ?b ?c ?d ?e ?f ?g ?h] =>
      pose proof (fire_sequence_py_le a b c e f d g h ltac:(assumption)) as L1;
      destruct (BattleSimNumba._fire_sequence_py a b c d e f g h) as [hp1 w1] end;
    cbn [fst] in L1;
    (destruct (hp1 <=? 0) eqn:E1; [reflexivity |]); apply Z.leb_gt in E1;
    unfold bind at 1 2;
    rewrite fire_sequence_in_range by (assumption || lia);
    match goal with |- context [BattleSimNumba._fire_sequence_py ?a ?b ?c ?d ?e ?f ?g ?h] =>
      pose proof (fire_sequence_py_le a b c e f d g h ltac:(assumption)) as L2;
      destruct (BattleSimNumba._fire_sequence_py a b c d e f g h) as [hp2 w2] end;
    cbn [fst] in L2;
    (destruct (hp2 <=? 0) eqn:E2; [reflexivity |]); apply Z.leb_gt in E2;
    apply IH; lia.
Qed.

Lemma battle_once_in_range spec_a spec_b fuel w :
  int64_safe spec_a -> int64_safe spec_b ->
  BattleSimNumba._battle_once fuel
    (sp_initiative spec_a) (sp_hull spec_a) (sp_computer spec_a)
    (sp_shield spec_a) (sp_missiles spec_a) (sp_cannons spec_a)
    (sp_initiative spec_b) (sp_hull spec_b) (sp_computer spec_b)
    (sp_shield spec_b) (sp_missiles spec_b) (sp_cannons spec_b) w
  = jit_view (BattleSimNumba._battle_once_py fuel spec_a spec_b w).
Proof.
  intros Ha Hb.
  pose proof Ha as (Ca & Sa & Ra & Ma & _). pose proof Hb as (Cb & Sb & Rb & Mb & _).
  unfold BattleSimNumba._battle_once, BattleSimNumba._battle_once_py. cbn zeta.
  destruct (sp_initiative spec_a >? sp_initiative spec_b); unfold bind at 1 3;
    rewrite fire_sequence_in_range by assumption;
    match goal with |- context [BattleSimNumba._fire_sequence_py ?a ?b ?c ?d ?e ?f ?g ?h] =>
      pose proof (fire_sequence_py_le a b c e f d g h ltac:(assumption)) as L1;
      destruct (BattleSimNumba._fire_sequence_py a b c d e f g h) as [hp1 w1] end;
    cbn [fst] in L1;
    (destruct (hp1 <=? 0) eqn:E1; [reflexivity |]); apply Z.leb_gt in E1;
    unfold bind at 1 2;
    rewrite fire_sequence_in_range by assumption;
    match goal with |- context [BattleSimNumba._fire_sequence_py ?a ?b ?c ?d ?e ?f ?g ?h] =>
      pose proof (fire_sequence_py_le a b c e f d g h ltac:(assumption)) as L2;
      destruct (BattleSimNumba._fire_sequence_py a b c d e f g h) as [hp2 w2] end;
    cbn [fst] in L2;
    (destruct (hp2 <=? 0) eqn:E2; [reflexivity |]); apply Z.leb_gt in E2;
    apply cannon_loop_in_range; (assumption || lia).
Qed.

(** X8. On specs whose computer and shield lie within 2^61 of zero, whose
    hull lies within 2^62 of zero and whose damage values are non-negative
    32-bit numbers, the JIT core is the fallback: on every stream of rolls
    [_battle_once] returns 1 where [_battle_once_py] returns [True] and 0
    where it returns [False], after the same rolls and the same shots. *)
Theorem jit_core_agrees_with_fallback :
  forall (spec_a spec_b : Spec) (fuel : nat) (w : World),
    int64_safe spec_a -> int64_safe spec_b ->
    fst (BattleSimNumba._battle_once fuel
           (sp_initiative spec_a) (sp_hull spec_a) (sp_computer spec_a)
           (sp_shield spec_a) (sp_missiles spec_a) (sp_cannons spec_a)
           (sp_initiative spec_b) (sp_hull spec_b) (sp_computer spec_b)
           (sp_shield spec_b) (sp_missiles spec_b) (sp_cannons spec_b) w)
    = match fst (BattleSimNumba._battle_once_py fuel spec_a spec_b w) with
      | Some true => Some 1
      | Some false => Some 0
      | None => None
      end
    /\ snd (BattleSimNumba._battle_once fuel
              (sp_initiative spec_a) (sp_hull spec_a) (sp_computer spec_a)
              (sp_shield spec_a) (sp_missiles spec_a) (sp_cannons spec_a)
              (sp_initiative spec_b) (sp_hull spec_b) (sp_computer spec_b)
              (sp_shield spec_b) (sp_missiles spec_b) (sp_cannons spec_b) w)
       = snd (BattleSimNumba._battle_once_py fuel spec_a spec_b w).
Proof.
  intros spec_a spec_b fuel w Ha Hb.
  rewrite (battle_once_in_range spec_a spec_b fuel w Ha Hb).
  unfold jit_view. cbn [fst snd]. split; [| reflexivity].
  destruct (fst (BattleSimNumba._battle_once_py fuel spec_a spec_b w)) as [[|] |];
    reflexivity.
Qed.

Lemma sudden_death_int64_safe : int64_safe sudden_death_a /\ int64_safe sudden_death_b.
Proof.
  unfold int64_safe, int32_damage, sudden_death_a, sudden_death_b.
  cbn [sp_computer sp_shield sp_hull sp_missiles sp_cannons].
  repeat split; repeat (apply Forall_cons; [split |]); try apply Forall_nil;
    try reflexivity; intro H; discriminate H.
Qed.


Lemma jit_core_agrees_with_fallback_witness :
  fst (BattleSimNumba._battle_once 4
         (sp_initiative sudden_death_a) (sp_hull sudden_death_a)
         (sp_computer sudden_death_a) (sp_shield sudden_death_a)
         (sp_missiles sudden_death_a) (sp_cannons sudden_death_a)
         (sp_initiative sudden_death_b) (sp_hull sudden_death_b)
         (sp_computer sudden_death_b) (sp_shield sudden_death_b)
         (sp_missiles sudden_death_b) (sp_cannons sudden_death_b) (fresh [D1; D5]))
  = match fst (BattleSimNumba._battle_once_py 4 sudden_death_a sudden_death_b
                 (fresh [D1; D5])) with
    | Some true => Some 1
    | Some false => Some 0
    | None => None
    end
  /\ snd (BattleSimNumba._battle_once 4
            (sp_initiative sudden_death_a) (sp_hull sudden_death_a)
            (sp_computer sudden_death_a) (sp_shield sudden_death_a)
            (sp_missiles sudden_death_a) (sp_cannons sudden_death_a)
            (sp_initiative sudden_death_b) (sp_hull sudden_death_b)
            (sp_computer sudden_death_b) (sp_shield sudden_death_b)
            (sp_missiles sudden_death_b) (sp_cannons sudden_death_b) (fresh [D1; D5]))
     = snd (BattleSimNumba._battle_once_py 4 sudden_death_a sudden_death_b
              (fresh [D1; D5])).
Proof.
  apply (jit_core_agrees_with_fallback sudden_death_a sudden_death_b 4 (fresh [D1; D5])).
  - exact (proj1 sudden_death_int64_safe).
  - exact (proj2 sudden_death_int64_safe).
Defined.

(** ** The two drivers *)

Lemma trials_refines fuel spec_a spec_b n :
  0 < sp_hull spec_a -> 0 < sp_hull spec_b ->
  forall wins w,
    trials fuel n spec_a spec_b wins w
    = BattleSimNumba.trials_py fuel n spec_a spec_b wins w.
Proof.
  intros Ha Hb. induction n as [| n IH]; intros wins w; [reflexivity |].
  cbn [trials BattleSimNumba.trials_py]. unfold bind.
  rewrite (simulate_once_refines spec_a spec_b fuel w Ha Hb). unfold plain_view.
  destruct (BattleSimNumba._battle_once_py fuel spec_a spec_b w) as [[[|] |] w'];
    cbn [fst snd option_map verdict Z.eqb Pos.eqb].
  - apply IH.
  - rewrite Z.add_0_r. apply IH.
  - reflexivity.
Qed.

(** X9. On specs with positive hulls the two modules are one driver: for
    every trial count, every seed or none, every generator state and every
    fuel, [win_probability] of [battle_sim] and the fallback path of
    [win_probability] of [battle_sim_numba] return the same quotient, raise
    the same error or are both still running, and leave the generator in
    the same state. *)
Theorem drivers_agree_on_positive_hulls :
  forall (seeded : Z -> nat -> Die) (spec_a spec_b : Spec) (simulations : Z)
         (seed : option Z) (fuel : nat) (w : World),
    0 < sp_hull spec_a -> 0 < sp_hull spec_b ->
    BattleSim.win_probability seeded spec_a spec_b simulations seed fuel w
    = BattleSimNumba.win_probability seeded spec_a spec_b simulations seed fuel w.
Proof.
  intros seeded spec_a spec_b simulations seed fuel w Ha Hb.
  rewrite win_probability_eq, win_probability_py_eq.
  now rewrite (trials_refines fuel spec_a spec_b (Z.to_nat simulations) Ha Hb).
Qed.

Lemma drivers_agree_witness :
  BattleSim.win_probability toy_generator sudden_death_a sudden_death_b 12 (Some 1) 9
    (fresh [])
  = BattleSimNumba.win_probability toy_generator sudden_death_a sudden_death_b 12
      (Some 1) 9 (fresh []).
Proof.
  apply (drivers_agree_on_positive_hulls toy_generator sudden_death_a sudden_death_b
           12 (Some 1) 9 (fresh []));
    reflexivity.
Defined.

(** Where a hull is 0 the drivers part: B starts destroyed and holds a
    missile, the roll is a Full hit; the plain driver counts a loss for A and
    the fallback a win. *)
Example drivers_disagree_at_hull_zero :
  fst (BattleSim.win_probability toy_generator (mkSpec 5 1 0 0 [] [1])
         (mkSpec 4 0 0 0 [1] []) 1 None 1 (fresh [D5]))
  = Returned (inject_Z 0 / inject_Z 1)
  /\ fst (BattleSimNumba.win_probability toy_generator (mkSpec 5 1 0 0 [] [1])
            (mkSpec 4 0 0 0 [1] []) 1 None 1 (fresh [D5]))
     = Returned (inject_Z 1 / inject_Z 1).
Proof. split; reflexivity. Qed.

Lemma trials_py_step fuel n spec_a spec_b wins w :
  BattleSimNumba.trials_py fuel (S n) spec_a spec_b wins w
  = match fst (BattleSimNumba._battle_once_py fuel spec_a spec_b w) with
    | None => (None, snd (BattleSimNumba._battle_once_py fuel spec_a spec_b w))
    | Some won =>
        BattleSimNumba.trials_py fuel n spec_a spec_b (if won then wins + 1 else wins)
          (snd (BattleSimNumba._battle_once_py fuel spec_a spec_b w))
    end.
Proof.
  cbn [BattleSimNumba.trials_py]. unfold bind.
  destruct (BattleSimNumba._battle_once_py fuel spec_a spec_b w) as [[won |] w'];
    reflexivity.
Qed.

Lemma trials_py_bounds fuel spec_a spec_b n :
  forall wins w v,
    fst (BattleSimNumba.trials_py fuel n spec_a spec_b wins w) = Some v ->
    wins <= v <= wins + Z.of_nat n.
Proof.
  induction n as [| n IH]; intros wins w v.
  - cbn. intros E. inversion E. lia.
  - rewrite trials_py_step.
    destruct (fst (BattleSimNumba._battle_once_py fuel spec_a spec_b w))
      as [won |]; [| discriminate].
    intros E. apply IH in E. destruct won; lia.
Qed.

Lemma share_in_unit_interval (v n : Z) :
  0 <= v <= n -> 0 < n -> (0 <= inject_Z v / inject_Z n <= 1)%Q.
Proof.
  intros Hv Hn.
  assert (Hq : (0 < inject_Z n)%Q) by (unfold Qlt; cbn; lia).
  split.
  - apply Qle_shift_div_l; [exact Hq |]. rewrite Qmult_0_l.
    unfold Qle. cbn. lia.
  - apply Qle_shift_div_r; [exact Hq |]. rewrite Qmult_1_l.
    rewrite <- Zle_Qle. lia.
Qed.

(** X10. With a positive trial count neither driver raises, and what it
    returns is a probability: for all specs, malformed ones included, every
    seed or none and every generator state, the result of [win_probability],
    plain or fallback, lies between 0 and 1 whenever the trials come to an
    end. *)
Theorem returned_share_is_a_probability :
  forall (seeded : Z -> nat -> Die) (spec_a spec_b : Spec) (simulations : Z)
         (seed : option Z) (fuel : nat) (w : World),
    0 < simulations ->
    match fst (BattleSim.win_probability seeded spec_a spec_b simulations seed fuel w) with
    | Returned p => (0 <= p <= 1)%Q
    | ZeroDivisionError => False
    | OutOfFuel => True
    end
    /\ match fst (BattleSimNumba.win_probability seeded spec_a spec_b simulations seed
                    fuel w) with
       | Returned p => (0 <= p <= 1)%Q
       | ZeroDivisionError => False
       | OutOfFuel => True
       end.
Proof.
  intros seeded spec_a spec_b simulations seed fuel w Hn.
  rewrite win_probability_eq, win_probability_py_eq. cbn [fst].
  split.
  - pose proof (trials_bounds fuel spec_a spec_b (Z.to_nat simulations) 0
                  (seeded_world seeded seed w)) as Hb.
    destruct (fst (trials fuel (Z.to_nat simulations) spec_a spec_b 0 _)) as [v |];
      [| exact I].
    specialize (Hb v eq_refl). rewrite Z2Nat.id in Hb by lia.
    unfold true_div. rewrite (proj2 (Z.eqb_neq simulations 0)) by lia.
    apply share_in_unit_interval; lia.
  - pose proof (trials_py_bounds fuel spec_a spec_b (Z.to_nat simulations) 0
                  (seeded_world seeded seed w)) as Hb.
    destruct (fst (BattleSimNumba.trials_py fuel (Z.to_nat simulations) spec_a spec_b 0 _))
      as [v |]; [| exact I].
    specialize (Hb v eq_refl). rewrite Z2Nat.id in Hb by lia.
    unfold true_div. rewrite (proj2 (Z.eqb_neq simulations 0)) by lia.
    apply share_in_unit_interval; lia.
Qed.

Lemma returned_share_witness :
  match fst (BattleSim.win_probability toy_generator sudden_death_a sudden_death_b 12
               (Some 1) 9 (fresh [])) with
  | Returned p => (0 <= p <= 1)%Q
  | ZeroDivisionError => False
  | OutOfFuel => True
  end
  /\ match fst (BattleSimNumba.win_probability toy_generator sudden_death_a
                  sudden_death_b 12 (Some 1) 9 (fresh [])) with
     | Returned p => (0 <= p <= 1)%Q
     | ZeroDivisionError => False
     | OutOfFuel => True
     end.
Proof.
  apply (returned_share_is_a_probability toy_generator sudden_death_a sudden_death_b 12
           (Some 1) 9 (fresh [])).
  reflexivity.
Defined.

(** ** Swapped roles in the fallback *)

(** Two runs of which the second names the other winner, on generators that
    end in the same state. *)
Definition swapped_runs (p1 p2 : option bool * World) : Prop :=
  fst p2 = option_map negb (fst p1) /\ same_rng (snd p1) (snd p2).

Lemma fire_sequence_py_same who1 who2 xch1 xch2 own1 own2 dmgs comp sh hp w1 w2 :
  same_rng w1 w2 ->
  fst (BattleSimNumba._fire_sequence_py who2 xch2 own2 dmgs comp sh hp w2)
  = fst (BattleSimNumba._fire_sequence_py who1 xch1 own1 dmgs comp sh hp w1)
  /\ same_rng (snd (BattleSimNumba._fire_sequence_py who1 xch1 own1 dmgs comp sh hp w1))
              (snd (BattleSimNumba._fire_sequence_py who2 xch2 own2 dmgs comp sh hp w2)).
Proof.
  intros Hw. rewrite !fire_sequence_py_volley. cbn [fst snd].
  destruct Hw as [Ht Hc]. rewrite <- Ht, <- Hc.
  split; [reflexivity |]. apply after_volley_same_rng. now split.
Qed.

(** One volley of each run, fired by the same ship at the same hull. *)
Ltac same_volley who1 who2 Hw hp w1' w2' Hw' :=
  match goal with
  | |- context [BattleSimNumba._fire_sequence_py who1 ?x ?o ?l ?c ?s ?h ?w1] =>
      match goal with
      | |- context [BattleSimNumba._fire_sequence_py who2 x o l c s h ?w2] =>
          let E := fresh "E" in
          let hp' := fresh "hp" in
          destruct (fire_sequence_py_same who1 who2 x x o o l c s h w1 w2 Hw) as [E Hw'];
          destruct (BattleSimNumba._fire_sequence_py who1 x o l c s h w1) as [hp w1'];
          destruct (BattleSimNumba._fire_sequence_py who2 x o l c s h w2) as [hp' w2'];
          cbn [fst snd] in E, Hw'; subst hp'
      end
  end.

(** The outcome of the fallback's loop with the two specs, the two hulls and
    the order exchanged. *)
Lemma cannon_loop_py_swapped spec_a spec_b a_first fuel :
  forall xch a_hp b_hp w1 w2,
    same_rng w1 w2 ->
    swapped_runs
      (BattleSimNumba.cannon_loop_py fuel xch spec_a spec_b a_first a_hp b_hp w1)
      (BattleSimNumba.cannon_loop_py fuel xch spec_b spec_a (negb a_first) b_hp a_hp w2).
Proof.
  induction fuel as [| fuel IH]; intros xch a_hp b_hp w1 w2 Hw.
  - split; [reflexivity | exact Hw].
  - cbn [BattleSimNumba.cannon_loop_py]. destruct a_first; cbn [negb] in *; unfold bind.
    + same_volley SideA SideB Hw hp1 w1' w2' Hw1.
      destruct (hp1 <=? 0); [split; [reflexivity | exact Hw1] |].
      same_volley SideB SideA Hw1 hp3 w1'' w2'' Hw2.
      destruct (hp3 <=? 0); [split; [reflexivity | exact Hw2] |].
      exact (IH (S xch) hp3 hp1 w1'' w2'' Hw2).
    + same_volley SideB SideA Hw hp1 w1' w2' Hw1.
      destruct (hp1 <=? 0); [split; [reflexivity | exact Hw1] |].
      same_volley SideA SideB Hw1 hp3 w1'' w2'' Hw2.
      destruct (hp3 <=? 0); [split; [reflexivity | exact Hw2] |].
      exact (IH (S xch) hp1 hp3 w1'' w2'' Hw2).
Qed.

Lemma gtb_swapped (x y : Z) : x <> y -> (y >? x) = negb (x >? y).
Proof. intros H. rewrite !Z.gtb_ltb. destruct (Z.ltb_spec x y), (Z.ltb_spec y x); cbn; lia. Qed.

Lemma battle_once_py_swapped spec_a spec_b fuel w1 w2 :
  sp_initiative spec_a <> sp_initiative spec_b ->
  same_rng w1 w2 ->
  swapped_runs (BattleSimNumba._battle_once_py fuel spec_a spec_b w1)
               (BattleSimNumba._battle_once_py fuel spec_b spec_a w2).
Proof.
  intros Hi Hw. unfold BattleSimNumba._battle_once_py. cbn zeta.
  rewrite (gtb_swapped _ _ Hi).
  destruct (sp_initiative spec_a >? sp_initiative spec_b); cbn [negb]; unfold bind.
  - same_volley SideA SideB Hw hp1 w1' w2' Hw1.
    destruct (hp1 <=? 0); [split; [reflexivity | exact Hw1] |].
    same_volley SideB SideA Hw1 hp3 w1'' w2'' Hw2.
    destruct (hp3 <=? 0); [split; [reflexivity | exact Hw2] |].
    exact (cannon_loop_py_swapped spec_a spec_b true fuel 1%nat hp3 hp1 w1'' w2'' Hw2).
  - same_volley SideB SideA Hw hp1 w1' w2' Hw1.
    destruct (hp1 <=? 0); [split; [reflexivity | exact Hw1] |].
    same_volley SideA SideB Hw1 hp3 w1'' w2'' Hw2.
    destruct (hp3 <=? 0); [split; [reflexivity | exact Hw2] |].
    exact (cannon_loop_py_swapped spec_a spec_b false fuel 1%nat hp1 hp3 w1'' w2'' Hw2).
Qed.

Lemma trials_py_swapped fuel spec_a spec_b n :
  sp_initiative spec_a <> sp_initiative spec_b ->
  forall wins1 wins2 w1 w2,
    same_rng w1 w2 ->
    match fst (BattleSimNumba.trials_py fuel n spec_a spec_b wins1 w1),
          fst (BattleSimNumba.trials_py fuel n spec_b spec_a wins2 w2) with
    | Some v1, Some v2 => v1 + v2 = wins1 + wins2 + Z.of_nat n
    | None, None => True
    | _, _ => False
    end.
Proof.
  intros Hi. induction n as [| n IH]; intros wins1 wins2 w1 w2 Hw.
  - cbn. lia.
  - rewrite !trials_py_step.
    destruct (battle_once_py_swapped spec_a spec_b fuel w1 w2 Hi Hw) as [Hr Hs].
    rewrite Hr.
    destruct (fst (BattleSimNumba._battle_once_py fuel spec_a spec_b w1)) as [won |];
      cbn [option_map]; [| exact I].
    specialize (IH (if won then wins1 + 1 else wins1)
                   (if negb won then wins2 + 1 else wins2) _ _ Hs).
    destruct won; cbn [negb] in IH |- *;
      destruct (fst (BattleSimNumba.trials_py fuel n spec_a spec_b _ _)),
               (fst (BattleSimNumba.trials_py fuel n spec_b spec_a _ _));
      try exact IH; lia.
Qed.

(** X11. The fallback driver is symmetric under a swap of the roles for all
    specs with distinct initiative values, malformed ones included: for every
    positive trial count and every integer seed the calls
    [win_probability(A, B, n, seed)] and [win_probability(B, A, n, seed)]
    of the fallback path either both return, and then their results add up to
    1, or are both still running; trial by trial they draw the same rolls
    and name opposite winners. *)
Theorem fallback_role_swap_symmetry :
  forall (seeded : Z -> nat -> Die) (spec_a spec_b : Spec) (simulations s : Z)
         (fuel : nat) (w1 w2 : World),
    sp_initiative spec_a <> sp_initiative spec_b ->
    0 < simulations ->
    match fst (BattleSimNumba.win_probability seeded spec_a spec_b simulations (Some s)
                 fuel w1),
          fst (BattleSimNumba.win_probability seeded spec_b spec_a simulations (Some s)
                 fuel w2) with
    | Returned p, Returned q => (p + q == 1)%Q
    | OutOfFuel, OutOfFuel => True
    | _, _ => False
    end.
Proof.
  intros seeded spec_a spec_b simulations s fuel w1 w2 Hi Hn.
  rewrite !win_probability_py_eq. cbn [fst].
  pose proof (trials_py_swapped fuel spec_a spec_b (Z.to_nat simulations) Hi 0 0
                (seeded_world seeded (Some s) w1) (seeded_world seeded (Some s) w2)
                (conj eq_refl eq_refl)) as H.
  destruct (fst (BattleSimNumba.trials_py fuel (Z.to_nat simulations) spec_a spec_b 0 _))
    as [v1 |],
    (fst (BattleSimNumba.trials_py fuel (Z.to_nat simulations) spec_b spec_a 0 _))
    as [v2 |]; try exact H.
  - unfold true_div. rewrite (proj2 (Z.eqb_neq simulations 0)) by lia.
    apply shares_add_up; [| exact Hn].
    rewrite H, Z2Nat.id; lia.
  - unfold true_div. now destruct (simulations =? 0).
  - unfold true_div. now destruct (simulations =? 0).
Qed.

(** A second malformed spec: no hull left at the start and a missile of
    negative damage. *)
Definition wreck : Spec := mkSpec 4 0 0 0 [-1] [1].

Lemma fallback_role_swap_witness :
  match fst (BattleSimNumba.win_probability toy_generator hulk wreck 3 (Some 2) 2
               (fresh [])),
        fst (BattleSimNumba.win_probability toy_generator wreck hulk 3 (Some 2) 2
               (fresh [])) with
  | Returned p, Returned q => (p + q == 1)%Q
  | OutOfFuel, OutOfFuel => True
  | _, _ => False
  end.
Proof.
  apply (fallback_role_swap_symmetry toy_generator hulk wreck 3 2 2
           (fresh []) (fresh [])).
  - discriminate.
  - reflexivity.
Defined.

(** With equal initiative values the symmetry fails: B fires first in either
    order, so between two copies of one ship under a generator that rolls
    nothing but Full hits both calls return 0. *)
Example equal_initiative_breaks_the_symmetry :
  fst (BattleSimNumba.win_probability (fun _ _ => D5) (mkSpec 3 1 0 0 [] [1])
         (mkSpec 3 1 0 0 [] [1]) 4 (Some 0) 1 (fresh []))
  = Returned (inject_Z 0 / inject_Z 4).
Proof. reflexivity. Qed.

(** The plain driver is not symmetric on malformed specs: between two ships
    that start with hull 0 and hold no missiles every trial is a draw, and
    both calls return 0, where the fallback returns 1 and 0. *)
Example plain_shares_of_two_wrecks :
  fst (BattleSim.win_probability toy_generator (mkSpec 5 0 0 0 [] [1])
         (mkSpec 4 0 0 0 [] [1]) 3 (Some 1) 9 (fresh []))
  = Returned (inject_Z 0 / inject_Z 3)
  /\ fst (BattleSim.win_probability toy_generator (mkSpec 4 0 0 0 [] [1])
            (mkSpec 5 0 0 0 [] [1]) 3 (Some 1) 9 (fresh []))
     = Returned (inject_Z 0 / inject_Z 3)
  /\ fst (BattleSimNumba.win_probability toy_generator (mkSpec 5 0 0 0 [] [1])
            (mkSpec 4 0 0 0 [] [1]) 3 (Some 1) 9 (fresh []))
     = Returned (inject_Z 3 / inject_Z 3)
  /\ fst (BattleSimNumba.win_probability toy_generator (mkSpec 4 0 0 0 [] [1])
            (mkSpec 5 0 0 0 [] [1]) 3 (Some 1) 9 (fresh []))
     = Returned (inject_Z 0 / inject_Z 3).
Proof. repeat split; reflexivity. Qed.

(** ** Hulls and the record of shots *)

(** The damage of the shots of [l] that [who] fired and that hit. *)
Fixpoint damage_dealt (who : Side) (l : list Shot) : Z :=
  match l with
  | [] => 0
  | e :: rest =>
      (if Side_eqb (shooter e) who && landed e then weapon_damage e else 0)
      + damage_dealt who rest
  end.

Lemma damage_dealt_app who l1 l2 :
  damage_dealt who (l1 ++ l2) = damage_dealt who l1 + damage_dealt who l2.
Proof. induction l1 as [| e l1 IH]; cbn [app damage_dealt]; [| rewrite IH]; lia. Qed.

(** The damage of the shots of one volley that hit. *)
Fixpoint landed_damage (l : list (bool * Z)) : Z :=
  match l with
  | [] => 0
  | (h, dmg) :: rest => (if h then dmg else 0) + landed_damage rest
  end.

Lemma volley_damage tp comp sh dmgs :
  forall c hp,
    fst (volley tp c comp sh dmgs hp)
    = hp - landed_damage (snd (volley tp c comp sh dmgs hp)).
Proof.
  induction dmgs as [| dmg rest IH]; intros c hp; cbn [volley].
  - cbn. lia.
  - destruct (hits comp sh (tp c)).
    + destruct (hp - dmg <=? 0); [cbn; lia |].
      specialize (IH (S c) (hp - dmg)).
      destruct (volley tp (S c) comp sh rest (hp - dmg)) as [hp' l].
      cbn [fst snd landed_damage] in *. lia.
    + specialize (IH (S c) hp).
      destruct (volley tp (S c) comp sh rest hp) as [hp' l].
      cbn [fst snd landed_damage] in *. lia.
Qed.

Lemma damage_dealt_volley who self xch own l :
  damage_dealt who (map (fun p => mkShot self xch own (fst p) (snd p)) l)
  = if Side_eqb self who then landed_damage l else 0.
Proof.
  induction l as [| [h dmg] l IH]; cbn [map damage_dealt landed_damage fst snd
                                        shooter landed weapon_damage].
  - now destruct (Side_eqb self who).
  - rewrite IH. destruct (Side_eqb self who); cbn [andb]; lia.
Qed.

(** What ship [r] has taken when the record is [l]. *)
Definition hull_and_damage (r : Side) (m : Mem) : Z :=
  hull (get r m) + damage_dealt (other r) (shots (rng m)).

Lemma fire_mem_accounts xch self l m r :
  hull_and_damage r (fire_mem xch self l m) = hull_and_damage r m.
Proof.
  unfold hull_and_damage. rewrite fire_mem_rng. unfold after_volley. cbn [shots].
  rewrite damage_dealt_app, damage_dealt_volley.
  pose proof (volley_damage (tape (rng m)) (computer (get self m))
                (shield (get (other self) m)) l (cursor (rng m))
                (hull (get (other self) m))) as Hv.
  unfold fire_mem. cbn zeta.
  destruct self, r; cbn [get other put with_rng obj_a obj_b set_hull hull Side_eqb] in *;
    lia.
Qed.

(** X12. The hulls two ships are left with account for the shots fired: in
    every duel of the plain resolver, whatever the specs, the rolls and the
    fuel, each ship's hull is after [_simulate_once] its hull before minus
    the damage values of the opponent's shots that hit during the duel, and
    of nothing else. *)
Theorem hulls_account_for_the_hits :
  forall (fuel : nat) (a b : Ship) (w : World),
    hull (obj_a (snd (_simulate_once fuel (mkMem w a b))))
    = hull a - (damage_dealt SideB (shots (rng (snd (_simulate_once fuel (mkMem w a b)))))
                - damage_dealt SideB (shots w))
    /\ hull (obj_b (snd (_simulate_once fuel (mkMem w a b))))
       = hull b - (damage_dealt SideA (shots (rng (snd (_simulate_once fuel (mkMem w a b)))))
                   - damage_dealt SideA (shots w)).
Proof.
  intros fuel a b w.
  enough (H : (fun m => hull_and_damage SideA m = hull_and_damage SideA (mkMem w a b)
                        /\ hull_and_damage SideB m = hull_and_damage SideB (mkMem w a b))
                (snd (_simulate_once fuel (mkMem w a b)))).
  { unfold hull_and_damage in H. cbn [get other rng obj_a obj_b] in H. lia. }
  apply simulate_once_keeps.
  - intros xch self l m [Ha Hb] _. rewrite !fire_mem_accounts. now split.
  - split; reflexivity.
Qed.

(** In this duel of the tied ships A takes one hit of damage 1 and B two. *)
Example tied_duel_accounts :
  let m := snd (_simulate_once 4 (mkMem (fresh [D5; D5; D4; D5])
                                   (Ship_init tied_a) (Ship_init tied_b))) in
  (hull (obj_a m), hull (obj_b m),
   damage_dealt SideB (shots (rng m)), damage_dealt SideA (shots (rng m)))
  = (1, 0, 1, 2).
Proof. reflexivity. Qed.

(** ** Weapons and exchanges *)

(** The damage values of the shots [r] fired in exchange [k], in the order of
    the record. *)
Definition fired_in (r : Side) (k : nat) (l : list Shot) : list Z :=
  map weapon_damage
      (filter (fun e => Side_eqb (shooter e) r && Nat.eqb (exchange e) k) l).

(** The weapons a ship fires in exchange [k]: its missiles in the opening
    exchange, its cannons in every round after it. *)
Definition armament (s : Ship) (k : nat) : list Z :=
  match k with
  | O => missiles s
  | S _ => cannons s
  end.

Lemma fired_in_app r k l1 l2 :
  fired_in r k (l1 ++ l2) = fired_in r k l1 ++ fired_in r k l2.
Proof. unfold fired_in. now rewrite filter_app, map_app. Qed.

Lemma fired_in_volley r k who xch own l :
  fired_in r k (map (fun p => mkShot who xch own (fst p) (snd p)) l)
  = if Side_eqb who r && Nat.eqb xch k then map snd l else [].
Proof.
  unfold fired_in.
  induction l as [| p l IH]; cbn [map filter shooter exchange].
  - now destruct (Side_eqb who r && Nat.eqb xch k).
  - destruct (Side_eqb who r && Nat.eqb xch k); [cbn [map weapon_damage]; f_equal |];
      exact IH.
Qed.

Lemma Side_eqb_eq x y : Side_eqb x y = true -> x = y.
Proof. destruct x, y; cbn; congruence. Qed.

Lemma fired_in_below first n r k l :
  Forall (fun e => (shot_slot first e < n)%nat) l ->
  (n <= slot first r k)%nat ->
  fired_in r k l = [].
Proof.
  intros Hl Hn. unfold fired_in.
  induction Hl as [| e l He _ IH]; [reflexivity |]. cbn [filter].
  destruct (Side_eqb (shooter e) r) eqn:Es; [| exact IH].
  destruct (Nat.eqb (exchange e) k) eqn:Ek; [| exact IH].
  apply Side_eqb_eq in Es. apply Nat.eqb_eq in Ek.
  unfold shot_slot in He. rewrite Es, Ek in He. lia.
Qed.

Lemma volley_in_list_order tp comp sh dmgs :
  forall c hp,
    map snd (snd (volley tp c comp sh dmgs hp))
    = firstn (length (snd (volley tp c comp sh dmgs hp))) dmgs.
Proof.
  induction dmgs as [| dmg rest IH]; intros c hp; cbn [volley]; [reflexivity |].
  destruct (hits comp sh (tp c)).
  - destruct (hp - dmg <=? 0); [reflexivity |].
    specialize (IH (S c) (hp - dmg)).
    destruct (volley tp (S c) comp sh rest (hp - dmg)) as [hp' l].
    cbn [snd map length firstn] in *. now f_equal.
  - specialize (IH (S c) hp).
    destruct (volley tp (S c) comp sh rest hp) as [hp' l].
    cbn [snd map length firstn] in *. now f_equal.
Qed.

Lemma fire_mem_armament xch self l m r k :
  armament (get r (fire_mem xch self l m)) k = armament (get r m) k.
Proof. destruct self, r, k; reflexivity. Qed.

(** Every shot on record has a slot below [n], and what each ship fired in
    each exchange is an initial segment of its weapons for that exchange. *)
Definition in_list_order (first : Side) (n : nat) (m0 m : Mem) : Prop :=
  (forall r k, armament (get r m) k = armament (get r m0) k)
  /\ Forall (fun e => (shot_slot first e < n)%nat) (shots (rng m))
  /\ forall r k,
       fired_in r k (shots (rng m))
       = firstn (length (fired_in r k (shots (rng m)))) (armament (get r m) k).

Lemma in_list_order_weaken first n n' m0 m :
  in_list_order first n m0 m -> (n <= n')%nat -> in_list_order first n' m0 m.
Proof.
  intros (Ha & Hs & Hf) Hle. repeat split; [exact Ha | | exact Hf].
  eapply Forall_impl; [| exact Hs]. intros e He. cbv beta in He. lia.
Qed.

Lemma slot_inj first r k r' k' :
  slot first r k = slot first r' k' -> r = r' /\ k = k'.
Proof.
  unfold slot. destruct first, r, r'; cbn [Side_eqb]; intros H;
    first [ split; [reflexivity | lia] | exfalso; lia ].
Qed.

Lemma fire_mem_in_list_order first n xch self m0 m :
  in_list_order first n m0 m ->
  (n <= slot first self xch)%nat ->
  in_list_order first (S (slot first self xch)) m0
    (fire_mem xch self (armament (get self m) xch) m).
Proof.
  intros (Ha & Hs & Hf) Hn. unfold in_list_order.
  rewrite fire_mem_rng. unfold after_volley. cbn [shots].
  split; [| split].
  - intros r k. rewrite fire_mem_armament. apply Ha.
  - apply Forall_app. split.
    + eapply Forall_impl; [| exact Hs]. intros e He. cbv beta in He. lia.
    + apply Forall_forall. intros e He. apply in_map_iff in He.
      destruct He as (p & <- & _). unfold shot_slot. cbn [shooter exchange]. lia.
  - intros r k. rewrite fire_mem_armament, fired_in_app, fired_in_volley.
    destruct (Side_eqb self r && Nat.eqb xch k) eqn:E.
    + apply andb_true_iff in E. destruct E as [Es Ek].
      apply Side_eqb_eq in Es. apply Nat.eqb_eq in Ek. subst r k.
      rewrite (fired_in_below first n self xch _ Hs Hn). cbn [app].
      rewrite length_map. apply volley_in_list_order.
    + rewrite app_nil_r. apply Hf.
Qed.

Lemma cannon_phase_in_list_order m0 fuel :
  forall xch first m,
    in_list_order first (2 * S xch) m0 m ->
    exists n,
      in_list_order first n m0 (snd (cannon_phase fuel (S xch) first (other first) m)).
Proof.
  induction fuel as [| fuel IH]; intros xch first m Hm; rewrite cannon_phase_step;
    destruct (negb (_destroyed (obj_a m)) && negb (_destroyed (obj_b m)));
    cbn [snd]; try (now exists (2 * S xch)%nat).
  cbn zeta.
  assert (H1 : in_list_order first (S (2 * S xch)) m0
                 (fire_mem (S xch) first (cannons (get first m)) m)).
  { rewrite <- (slot_first first (S xch)).
    apply (fire_mem_in_list_order first (2 * S xch) (S xch) first m0 m Hm).
    rewrite slot_first. apply le_n. }
  set (m1 := fire_mem (S xch) first (cannons (get first m)) m) in *.
  destruct (_destroyed (get (other first) m1)); cbn [snd].
  - now exists (S (2 * S xch)).
  - apply IH. apply (in_list_order_weaken first (S (slot first (other first) (S xch)))).
    + apply (fire_mem_in_list_order first (S (2 * S xch)) (S xch) (other first) m0 m1 H1).
      rewrite slot_second. lia.
    + rewrite slot_second. lia.
Qed.

Lemma simulate_once_in_list_order fuel m :
  shots (rng m) = [] ->
  forall r k,
    fired_in r k (shots (rng (snd (_simulate_once fuel m))))
    = firstn (length (fired_in r k (shots (rng (snd (_simulate_once fuel m))))))
             (armament (get r m) k).
Proof.
  intros Hnil.
  enough (H : exists first n, in_list_order first n m (snd (_simulate_once fuel m))).
  { destruct H as (first & n & Ha & _ & Hf). intros r k. rewrite <- Ha. apply Hf. }
  rewrite simulate_once_step. cbn zeta. rewrite !fire_mem_if.
  set (first := if initiative (obj_a m) >? initiative (obj_b m) then SideA else SideB).
  exists first.
  assert (H0 : in_list_order first 0 m m).
  { unfold in_list_order. rewrite Hnil. repeat split; constructor. }
  set (m1 := fire_mem 0 first (missiles (get first m)) m).
  assert (H1 : in_list_order first 1 m m1).
  { rewrite <- (slot_first first 0) at 1.
    apply (fire_mem_in_list_order first 0 0 first m m H0). apply Nat.le_0_l. }
  destruct (truthy (missiles (get first m)) && _destroyed (get (other first) m1));
    cbn [snd]; [now exists 1%nat |].
  set (m2 := fire_mem 0 (other first) (missiles (get (other first) m1)) m1).
  assert (H2 : in_list_order first 2 m m2).
  { replace 2%nat with (S (slot first (other first) 0)) by (rewrite slot_second; lia).
    apply (fire_mem_in_list_order first 1 0 (other first) m m1 H1).
    rewrite slot_second. lia. }
  destruct (truthy (missiles (get (other first) m1)) && _destroyed (get first m2));
    cbn [snd]; [now exists 2%nat |].
  destruct (cannon_phase_in_list_order m fuel 0 first m2 H2) as [n H3].
  exists n.
  destruct (cannon_phase fuel 1 first (other first) m2) as [[[] |] m3]; cbn [snd] in *.
  - destruct (_destroyed (obj_a m3) && _destroyed (obj_b m3)); exact H3.
  - exact H3.
Qed.

(** X13. In a duel of the plain resolver each ship fires its weapons in list
    order and each of them at most once in an exchange, the missiles in the
    opening exchange only and the cannons in the rounds after it: whatever
    the specs, the rolls and the fuel, the damage values of the shots a ship
    fired in exchange [k] are an initial segment of its missile list when [k]
    is 0 and of its cannon list otherwise. *)
Theorem weapons_fire_in_list_order :
  forall (fuel : nat) (a b : Ship) (tp : nat -> Die) (c0 : nat) (r : Side) (k : nat),
    fired_in r k
      (shots (rng (snd (_simulate_once fuel (mkMem (mkWorld tp c0 []) a b)))))
    = firstn
        (length (fired_in r k
           (shots (rng (snd (_simulate_once fuel (mkMem (mkWorld tp c0 []) a b)))))))
        (armament (get r (mkMem (mkWorld tp c0 []) a b)) k).
Proof.
  intros fuel a b tp c0 r k.
  exact (simulate_once_in_list_order fuel (mkMem (mkWorld tp c0 []) a b) eq_refl r k).
Qed.

(** The two ships of the benchmark of [battle_sim_numba]. *)
Definition SHIP_A : Spec := mkSpec 6 3 2 1 [2; 1] [2; 1].
Definition SHIP_B : Spec := mkSpec 4 3 1 1 [2; 1; 1] [1; 1].

(** A duel between them: both fire all their missiles, A both cannons, and
    B's first cannon ends the duel before its second is fired. *)
Example benchmark_duel_volleys :
  map (fun p : Side * nat =>
         fired_in (fst p) (snd p)
           (shots (rng (snd (_simulate_once 5
              (mkMem (fresh [D0; D3; D5; D0; D1; D1; D4; D5])
                     (Ship_init SHIP_A) (Ship_init SHIP_B)))))))
      [(SideA, 0%nat); (SideB, 0%nat); (SideA, 1%nat); (SideB, 1%nat)]
  = [[2; 1]; [2; 1; 1]; [2; 1]; [1]].
Proof. reflexivity. Qed.

(** ** Rolls and shots *)

(** Whatever every volley keeps of the world, the duels of the fallback
    keep. *)
Section WorldInvariant.

Variable P : World -> Prop.
Hypothesis P_volley :
  forall who xch own w l, P w -> P (after_volley who xch own w l).





End WorldInvariant.





(** ** Ships that do no damage *)

(** No weapon of the spec has a positive damage value. *)
Definition harmless (spec : Spec) : Prop :=
  Forall (fun dmg => dmg <= 0) (sp_missiles spec)
  /\ Forall (fun dmg => dmg <= 0) (sp_cannons spec).

Lemma volley_ge tp comp sh dmgs :
  Forall (fun dmg => dmg <= 0) dmgs ->
  forall c hp, hp <= fst (volley tp c comp sh dmgs hp).
Proof.
  induction 1 as [| dmg rest Hd _ IH]; intros c hp; cbn [volley fst]; [lia |].
  destruct (hits comp sh (tp c)).
  - destruct (hp - dmg <=? 0); cbn [fst]; [lia |].
    specialize (IH (S c) (hp - dmg)).
    destruct (volley tp (S c) comp sh rest (hp - dmg)). cbn [fst] in *. lia.
  - specialize (IH (S c) hp).
    destruct (volley tp (S c) comp sh rest hp). cbn [fst] in *. lia.
Qed.

Lemma fire_sequence_py_ge who xch own comp sh dmgs hp w :
  Forall (fun dmg => dmg <= 0) dmgs ->
  0 < hp ->
  (fst (BattleSimNumba._fire_sequence_py who xch own dmgs comp sh hp w) <=? 0) = false.
Proof.
  intros Hd Hp. rewrite fire_sequence_py_volley. cbn [fst].
  apply leb_pos_false.
  pose proof (volley_ge (tape w) comp sh dmgs Hd (cursor w) hp). lia.
Qed.

(** The run does not name A the winner. *)
Definition a_does_not_win (p : option bool * World) : Prop :=
  match fst p with
  | Some true => False
  | _ => True
  end.

Lemma cannon_loop_py_harmless spec_a spec_b a_first fuel :
  Forall (fun dmg => dmg <= 0) (sp_cannons spec_a) ->
  forall xch a_hp b_hp w,
    0 < b_hp ->
    a_does_not_win
      (BattleSimNumba.cannon_loop_py fuel xch spec_a spec_b a_first a_hp b_hp w).
Proof.
  intros Hc. induction fuel as [| fuel IH]; intros xch a_hp b_hp w Hb;
    cbn [BattleSimNumba.cannon_loop_py]; [exact I |].
  destruct a_first; unfold bind.
  - pose proof (fire_sequence_py_ge SideA xch a_hp (sp_computer spec_a)
                  (sp_shield spec_b) (sp_cannons spec_a) b_hp w Hc Hb) as H1.
    destruct (BattleSimNumba._fire_sequence_py SideA xch a_hp (sp_cannons spec_a)
                (sp_computer spec_a) (sp_shield spec_b) b_hp w) as [hp1 w1].
    cbn [fst] in H1. rewrite H1. apply Z.leb_gt in H1.
    destruct (BattleSimNumba._fire_sequence_py SideB xch hp1 (sp_cannons spec_b)
                (sp_computer spec_b) (sp_shield spec_a) a_hp w1) as [hp2 w2].
    destruct (hp2 <=? 0); [exact I | now apply IH].
  - destruct (BattleSimNumba._fire_sequence_py SideB xch b_hp (sp_cannons spec_b)
                (sp_computer spec_b) (sp_shield spec_a) a_hp w) as [hp1 w1].
    destruct (hp1 <=? 0); [exact I |].
    pose proof (fire_sequence_py_ge SideA xch hp1 (sp_computer spec_a)
                  (sp_shield spec_b) (sp_cannons spec_a) b_hp w1 Hc Hb) as H2.
    destruct (BattleSimNumba._fire_sequence_py SideA xch hp1 (sp_cannons spec_a)
                (sp_computer spec_a) (sp_shield spec_b) b_hp w1) as [hp2 w2].
    cbn [fst] in H2. rewrite H2. apply Z.leb_gt in H2. now apply IH.
Qed.

Lemma battle_once_py_harmless spec_a spec_b fuel w :
  harmless spec_a -> 0 < sp_hull spec_b ->
  a_does_not_win (BattleSimNumba._battle_once_py fuel spec_a spec_b w).
Proof.
  intros [Hm Hc] Hb. unfold BattleSimNumba._battle_once_py. cbn zeta.
  destruct (sp_initiative spec_a >? sp_initiative spec_b); unfold bind.
  - pose proof (fire_sequence_py_ge SideA 0 (sp_hull spec_a) (sp_computer spec_a)
                  (sp_shield spec_b) (sp_missiles spec_a) (sp_hull spec_b) w Hm Hb) as H1.
    destruct (BattleSimNumba._fire_sequence_py SideA 0 (sp_hull spec_a)
                (sp_missiles spec_a) (sp_computer spec_a) (sp_shield spec_b)
                (sp_hull spec_b) w) as [hp1 w1].
    cbn [fst] in H1. rewrite H1. apply Z.leb_gt in H1.
    destruct (BattleSimNumba._fire_sequence_py SideB 0 hp1 (sp_missiles spec_b)
                (sp_computer spec_b) (sp_shield spec_a) (sp_hull spec_a) w1) as [hp2 w2].
    destruct (hp2 <=? 0); [exact I | now apply cannon_loop_py_harmless].
  - destruct (BattleSimNumba._fire_sequence_py SideB 0 (sp_hull spec_b)
                (sp_missiles spec_b) (sp_computer spec_b) (sp_shield spec_a)
                (sp_hull spec_a) w) as [hp1 w1].
    destruct (hp1 <=? 0); [exact I |].
    pose proof (fire_sequence_py_ge SideA 0 hp1 (sp_computer spec_a)
                  (sp_shield spec_b) (sp_missiles spec_a) (sp_hull spec_b) w1 Hm Hb) as H2.
    destruct (BattleSimNumba._fire_sequence_py SideA 0 hp1 (sp_missiles spec_a)
                (sp_computer spec_a) (sp_shield spec_b) (sp_hull spec_b) w1) as [hp2 w2].
    cbn [fst] in H2. rewrite H2. apply Z.leb_gt in H2.
    now apply cannon_loop_py_harmless.
Qed.

(** X15. A ship that does no damage never wins: when no weapon of spec A has
    a positive damage value and both starting hulls are positive, no duel
    names A the winner, whatever the rolls and the fuel; the plain resolver
    never returns 1 and the fallback never returns [True]. *)
Theorem harmless_ship_never_wins :
  forall (spec_a spec_b : Spec) (fuel : nat) (w : World),
    harmless spec_a -> 0 < sp_hull spec_a -> 0 < sp_hull spec_b ->
    match fst (call_simulate_once fuel (Ship_init spec_a) (Ship_init spec_b) w) with
    | Some v => v = -1
    | None => True
    end
    /\ match fst (BattleSimNumba._battle_once_py fuel spec_a spec_b w) with
       | Some won => won = false
       | None => True
       end.
Proof.
  intros spec_a spec_b fuel w Hh Ha Hb.
  rewrite (simulate_once_refines spec_a spec_b fuel w Ha Hb).
  unfold plain_view. cbn [fst].
  pose proof (battle_once_py_harmless spec_a spec_b fuel w Hh Hb) as H.
  unfold a_does_not_win in H.
  destruct (fst (BattleSimNumba._battle_once_py fuel spec_a spec_b w)) as [[|] |];
    cbn [option_map verdict]; [destruct H | split; reflexivity | split; exact I].
Qed.

(** A ship whose only weapon is a cannon of damage 0. *)
Definition blank_a : Spec := mkSpec 5 1 5 0 [] [0].

Lemma harmless_ship_never_wins_witness :
  match fst (call_simulate_once 3 (Ship_init blank_a) (Ship_init sudden_death_b)
               (fresh [D5; D0; D5; D5])) with
  | Some v => v = -1
  | None => True
  end
  /\ match fst (BattleSimNumba._battle_once_py 3 blank_a sudden_death_b
                  (fresh [D5; D0; D5; D5])) with
     | Some won => won = false
     | None => True
     end.
Proof.
  apply (harmless_ship_never_wins blank_a sudden_death_b 3 (fresh [D5; D0; D5; D5])).
  - split; repeat constructor; discriminate.
  - reflexivity.
  - reflexivity.
Defined.

(** In that duel A's cannon hits twice to no effect, and B's second shot
    destroys A. *)
Example blank_shots_lose :
  fst (call_simulate_once 3 (Ship_init blank_a) (Ship_init sudden_death_b)
         (fresh [D5; D0; D5; D5]))
  = Some (-1)
  /\ map landed (shots (snd (call_simulate_once 3 (Ship_init blank_a)
                               (Ship_init sudden_death_b) (fresh [D5; D0; D5; D5]))))
     = [true; false; true; true].
Proof. split; reflexivity. Qed.

(** * The side that fires first *)

(** ** Volleys that are answered *)

(** In the record [l] the side that does not open the duel never fires in an
    exchange before [first] has fired every weapon it has for that exchange;
    [F k] are the weapons of [first] for exchange [k]. *)
Definition answered (first : Side) (F : nat -> list Z) (l : list Shot) : Prop :=
  forall l1 e l2,
    l = l1 ++ e :: l2 -> shooter e = other first ->
    fired_in first (exchange e) l1 = F (exchange e).




Lemma Side_eqb_other (s : Side) : Side_eqb (other s) s = false.
Proof. now destruct s. Qed.











(** ** The plain resolver *)









(** The record begins with a shot that [P] holds of. *)
Definition begins_with (P : Shot -> Prop) (l : list Shot) : Prop :=
  exists e rest, l = e :: rest /\ P e.

(** [e] is a shot that [who] fires in exchange [xch] with the weapon of
    damage [dmg], while it has the hull [own] left. *)
Definition shot_of (who : Side) (xch : nat) (own dmg : Z) (e : Shot) : Prop :=
  shooter e = who /\ exchange e = xch /\ shooter_hull e = own /\ weapon_damage e = dmg.






(** ** The fallback *)

(** The weapons of a spec for each exchange. *)
Definition spec_armament (spec : Spec) : nat -> list Z := armament (Ship_init spec).









(** ** The three resolvers *)




(** [first] fires first throughout the record [l] of a duel of [fuel] rounds
    at most that starts from an empty record: the shots are in the order of
    a duel that [first] opens; the other side fires in no exchange before
    [first] has fired every weapon it has for that exchange; and the record
    begins with the first missile of [first], if it has one, or, when nobody
    has a missile and both hulls are positive, with its first cannon, if it
    has one and a round is run. *)
Definition fires_first_throughout (first : Side) (fuel : nat)
           (spec_first spec_second : Spec) (l : list Shot) : Prop :=
  fires_first first l
  /\ answered first (spec_armament spec_first) l
  /\ (forall dmg rest,
         sp_missiles spec_first = dmg :: rest ->
         begins_with (shot_of first 0 (sp_hull spec_first) dmg) l)
  /\ (forall dmg rest,
         sp_missiles spec_first = [] -> sp_missiles spec_second = [] ->
         0 < sp_hull spec_first -> 0 < sp_hull spec_second -> fuel <> 0%nat ->
         sp_cannons spec_first = dmg :: rest ->
         begins_with (shot_of first 1 (sp_hull spec_first) dmg) l).







(** Neither the empty record nor a record on which B is silent is one of a
    duel of the tied ships that B opens: B has a missile, which has to be the
    first shot, and A's missile may only follow it. *)
Example silent_records_are_not_led :
  ~ fires_first_throughout SideB 1 tied_b tied_a []
  /\ ~ fires_first_throughout SideB 1 tied_b tied_a [mkShot SideA 0 2 false 1].
Proof.
  split.
  - intros (_ & _ & Hm & _). destruct (Hm 1 [] eq_refl) as (e & rest & E & _).
    discriminate E.
  - intros (_ & Ha & _).
    specialize (Ha [] (mkShot SideA 0 2 false 1) [] eq_refl eq_refl).
    discriminate Ha.
Qed.


